(** * PaliBridge live session core: a shallow embedding of [src/index.tsx]

    The development follows the [App] component of the source: the session
    identity guard ([currentSessionIdRef]), the capture tick
    ([scriptProcessor.onaudioprocess]), the playback scheduler
    ([playAudioChunk]), the transcript aggregator ([handleTranscription],
    [updateMessageState]), the error handler ([onerror]) and the life cycle
    ([connect], [disconnect], [cleanupAudioAndSession]).

    Conventions of the embedding.
    - React state ([useState]) and refs ([useRef]) are the fields of one
      record [State]; every handler is a function [State -> State].
    - JavaScript strings are [string]s holding the UTF-8 form of the text.
    - JavaScript numbers that carry time stamps, samples and levels are real
      numbers ([R]); the session id ([Date.now()]) is an integer ([Z]).
    - Browser built-ins whose tables are not part of the repository
      ([String.prototype.toLowerCase], [String.prototype.trim], [btoa],
      [atob]) are the operations of the class [Builtins]. *)

From Stdlib Require Import Ascii String ZArith Sorted Reals Lra.
From stdpp Require Import base decidable option list strings gmap pretty
  sorting.

Local Open Scope Z_scope.
Local Open Scope string_scope.

(** ** Browser built-ins *)

Class Builtins := {
  (** [s.toLowerCase()] *)
  toLowerCase : string -> string;
  (** [s.trim()] *)
  trim : string -> string;
  (** [btoa(binary)], on a binary string (one byte per character) *)
  btoa : string -> string;
  (** [atob(base64)]; [None] when the call throws *)
  atob : string -> option string
}.

(** ** Strings *)

(** [s.includes(pat)]: [pat] occurs in [s] as a contiguous substring. *)
Fixpoint includes (s pat : string) : bool :=
  String.prefix pat s ||
  match s with
  | EmptyString => false
  | String _ rest => includes rest pat
  end.

(** Truthiness of a JavaScript string: every string but the empty one. *)
Definition truthy (s : string) : bool :=
  match s with
  | EmptyString => false
  | String _ _ => true
  end.

(** [acc + x] where [x] may be [undefined]: the missing operand is rendered
    as the text ["undefined"]. *)
Definition js_concat (acc : string) (x : option string) : string :=
  acc +:+ default "undefined" x.

(** ** Transcript messages *)

Inductive Role := user | model.

Global Instance Role_eq_dec : EqDecision Role.
Proof. solve_decision. Defined.

Record Message := mkMessage {
  id : string;
  role : Role;
  text : string;
  isComplete : bool
}.

Global Instance Message_eq_dec : EqDecision Message.
Proof. solve_decision. Defined.

Section Transcript.
Context `{Builtins}.

(** The updater that [updateMessageState] hands to [setMessages]; [now] is
    the reading of [Date.now()] taken when a new entry is created. *)
Definition updateMessageState (now : Z) (r : Role) (txt : string)
    (complete : bool) (prev : list Message) : list Message :=
  match last prev with
  | Some lastMsg =>
      if bool_decide (role lastMsg = r) && negb (isComplete lastMsg)
      then removelast prev ++ [mkMessage (id lastMsg) (role lastMsg) txt complete]
      else if truthy (trim txt)
           then prev ++ [mkMessage (pretty now) r txt complete]
           else prev
  | None =>
      if truthy (trim txt)
      then prev ++ [mkMessage (pretty now) r txt complete]
      else prev
  end.
End Transcript.

(** ** Audio data *)

Local Open Scope R_scope.

Definition BUFFER_SIZE : nat := 2048.
Definition SAMPLE_RATE_INPUT : R := 16000.
Definition SAMPLE_RATE_OUTPUT : R := 24000.

(** Objects of the browser (audio contexts, nodes, streams, the transport
    session) are known to the component by identity only. *)
Definition Handle := nat.
Definition SourceId := nat.

(** What [session.sendRealtimeInput] receives under [media]. *)
Record AudioFrame := mkAudioFrame {
  mimeType : string;
  data : string
}.

(** An [AudioBuffer] with one channel. *)
Record AudioBuffer := mkAudioBuffer {
  channelData : list R;
  sampleRate : R
}.

(** [buffer.duration]: the number of sample frames over the sample rate. *)
Definition duration (b : AudioBuffer) : R :=
  INR (length (channelData b)) / sampleRate b.

(** An [AudioBufferSourceNode] after [source.start(start)]. *)
Record PlaybackSource := mkPlaybackSource {
  sourceId : SourceId;
  buffer : AudioBuffer;
  scheduledStart : R
}.

(** What teardown hands back to the browser, in call order. *)
Inductive Resource :=
  | ProcessorNode (h : Handle)   (* processorRef.current.disconnect() *)
  | StreamSourceNode (h : Handle) (* sourceRef.current.disconnect() *)
  | StreamTracks (h : Handle)    (* every track of the stream: track.stop() *)
  | LiveSession (h : Handle)     (* session.close() *)
  | Context (h : Handle).        (* audio context: close() *)

(** *** Numeric conversions of typed arrays *)

(** Truncation toward zero of a real number. *)
Definition truncR (x : R) : Z :=
  if Rle_dec 0 x then Int_part x else (- Int_part (- x))%Z.

(** Storing a number into an [Int16Array] slot: truncate, wrap modulo 2^16,
    read as a signed 16-bit value. *)
Definition toInt16 (x : R) : Z :=
  let u := (truncR x mod 65536)%Z in
  if (u <? 32768)%Z then u else (u - 65536)%Z.

Definition byte_of_Z (z : Z) : ascii := ascii_of_N (Z.to_N (z mod 256)).
Definition Z_of_byte (c : ascii) : Z := Z.of_N (N_of_ascii c).

(** The two bytes of an [Int16Array] slot as a [Uint8Array] over the same
    buffer shows them (little-endian, as on every platform that runs the
    component), already as characters of the binary string. *)
Definition int16_bytes (v : Z) : string :=
  String (byte_of_Z v) (String (byte_of_Z (v / 256)%Z) EmptyString).

Fixpoint int16_buffer (l : list Z) : string :=
  match l with
  | [] => EmptyString
  | v :: rest => int16_bytes v +:+ int16_buffer rest
  end.

(** [new Int16Array(data.buffer)] over the bytes of a binary string; [None]
    is the [RangeError] of a byte length that is not a multiple of two. *)
Fixpoint int16_of_bytes (s : string) : option (list Z) :=
  match s with
  | EmptyString => Some []
  | String _ EmptyString => None
  | String lo (String hi rest) =>
      let u := (Z_of_byte lo + 256 * Z_of_byte hi)%Z in
      let v := if (u <? 32768)%Z then u else (u - 65536)%Z in
      option_map (cons v) (int16_of_bytes rest)
  end.

(** [decodeAudioData(data, ctx, sampleRate, 1)]; [None] is a rejected
    promise: the [RangeError] above, or [ctx.createBuffer] refusing a buffer
    of zero frames. *)
Definition decodeAudioData (bytes : string) (rate : R) : option AudioBuffer :=
  match int16_of_bytes bytes with
  | None => None
  | Some [] => None
  | Some dataInt16 =>
      Some (mkAudioBuffer (List.map (fun v => IZR v / 32768) dataInt16) rate)
  end.

(** The volume meter of the capture tick: root mean square of the samples,
    times ten, capped at one. *)
Definition sumSquares (inputData : list R) : R :=
  fold_left (fun sum x => sum + x * x) inputData 0.

Definition rms (inputData : list R) : R :=
  sqrt (sumSquares inputData / INR (length inputData)).

Definition volumeLevel (inputData : list R) : R :=
  Rmin (rms inputData * 10) 1.

(** ** Inbound transport messages *)

(** [{ text?: string }] *)
Record Transcription := mkTranscription {
  tx_text : option string
}.

(** [message.serverContent]. [audio] is
    [modelTurn?.parts?.[0]?.inlineData?.data]; an absent [turnComplete] or
    [interrupted] reads as [false]. *)
Record ServerContent := mkServerContent {
  audio : option string;
  inputTranscription : option Transcription;
  outputTranscription : option Transcription;
  turnComplete : bool;
  interrupted : bool
}.

Record LiveServerMessage := mkLiveServerMessage {
  serverContent : option ServerContent
}.

(** ** Error signals

    What [onerror] may receive, by the branch of the text extraction that
    takes it. *)
Inductive JsonOutcome :=
  | JsonThrows                 (* JSON.stringify(e) throws *)
  | JsonUndefined              (* JSON.stringify(e) is undefined *)
  | JsonText (json : string).

Inductive ErrorSignal :=
  | ErrorInstance (message : string)       (* e instanceof Error *)
  | ObjectWithMessage (message : string)   (* 'message' in e; String(e.message) *)
  | PlainObject (json : JsonOutcome) (str : string) (* JSON.stringify(e); String(e) *)
  | Primitive (str : string).              (* String(e) *)

(** ** The state of the component *)

Record State := mkState {
  (* useState *)
  isConnected : bool;
  isSpeaking : bool;
  isBusy : bool;
  messages : list Message;
  error : option string;
  volume : R;
  (* useRef *)
  audioContextInput : option Handle;
  audioContextOutput : option Handle;
  processorRef : option Handle;
  sourceRef : option Handle;
  nextStartTime : R;
  audioSources : gset SourceId;
  streamRef : option Handle;
  activeSessionRef : option Handle;
  currentSessionIdRef : Z;
  currentInputTrans : string;
  currentOutputTrans : string;
  (* the component's calls into the browser and the transport *)
  outbound : list AudioFrame;           (* session.sendRealtimeInput *)
  pendingSends : list (Z * AudioFrame); (* reactions waiting on sessionPromise *)
  playback : list PlaybackSource;       (* source.start *)
  stopped : gset SourceId;              (* src.stop *)
  speakingTimers : nat;                 (* setTimeout(..., 100) not yet fired *)
  released : list Resource;
  nextSource : SourceId                 (* identity of the next buffer source *)
}.

Definition set_isConnected (v : bool) (st : State) : State :=
  mkState v (isSpeaking st) (isBusy st) (messages st) (error st) (volume st)
    (audioContextInput st) (audioContextOutput st) (processorRef st)
    (sourceRef st) (nextStartTime st) (audioSources st) (streamRef st)
    (activeSessionRef st) (currentSessionIdRef st) (currentInputTrans st)
    (currentOutputTrans st) (outbound st) (pendingSends st) (playback st)
    (stopped st) (speakingTimers st) (released st) (nextSource st).

Definition set_isSpeaking (v : bool) (st : State) : State :=
  mkState (isConnected st) v (isBusy st) (messages st) (error st)
    (volume st) (audioContextInput st) (audioContextOutput st)
    (processorRef st) (sourceRef st) (nextStartTime st) (audioSources st)
    (streamRef st) (activeSessionRef st) (currentSessionIdRef st)
    (currentInputTrans st) (currentOutputTrans st) (outbound st)
    (pendingSends st) (playback st) (stopped st) (speakingTimers st)
    (released st) (nextSource st).

Definition set_isBusy (v : bool) (st : State) : State :=
  mkState (isConnected st) (isSpeaking st) v (messages st) (error st)
    (volume st) (audioContextInput st) (audioContextOutput st)
    (processorRef st) (sourceRef st) (nextStartTime st) (audioSources st)
    (streamRef st) (activeSessionRef st) (currentSessionIdRef st)
    (currentInputTrans st) (currentOutputTrans st) (outbound st)
    (pendingSends st) (playback st) (stopped st) (speakingTimers st)
    (released st) (nextSource st).

Definition set_messages (v : list Message) (st : State) : State :=
  mkState (isConnected st) (isSpeaking st) (isBusy st) v (error st)
    (volume st) (audioContextInput st) (audioContextOutput st)
    (processorRef st) (sourceRef st) (nextStartTime st) (audioSources st)
    (streamRef st) (activeSessionRef st) (currentSessionIdRef st)
    (currentInputTrans st) (currentOutputTrans st) (outbound st)
    (pendingSends st) (playback st) (stopped st) (speakingTimers st)
    (released st) (nextSource st).

Definition set_error (v : option string) (st : State) : State :=
  mkState (isConnected st) (isSpeaking st) (isBusy st) (messages st) v
    (volume st) (audioContextInput st) (audioContextOutput st)
    (processorRef st) (sourceRef st) (nextStartTime st) (audioSources st)
    (streamRef st) (activeSessionRef st) (currentSessionIdRef st)
    (currentInputTrans st) (currentOutputTrans st) (outbound st)
    (pendingSends st) (playback st) (stopped st) (speakingTimers st)
    (released st) (nextSource st).

Definition set_volume (v : R) (st : State) : State :=
  mkState (isConnected st) (isSpeaking st) (isBusy st) (messages st)
    (error st) v (audioContextInput st) (audioContextOutput st)
    (processorRef st) (sourceRef st) (nextStartTime st) (audioSources st)
    (streamRef st) (activeSessionRef st) (currentSessionIdRef st)
    (currentInputTrans st) (currentOutputTrans st) (outbound st)
    (pendingSends st) (playback st) (stopped st) (speakingTimers st)
    (released st) (nextSource st).

Definition set_audioContextInput (v : option Handle) (st : State) : State :=
  mkState (isConnected st) (isSpeaking st) (isBusy st) (messages st)
    (error st) (volume st) v (audioContextOutput st) (processorRef st)
    (sourceRef st) (nextStartTime st) (audioSources st) (streamRef st)
    (activeSessionRef st) (currentSessionIdRef st) (currentInputTrans st)
    (currentOutputTrans st) (outbound st) (pendingSends st) (playback st)
    (stopped st) (speakingTimers st) (released st) (nextSource st).

Definition set_audioContextOutput (v : option Handle) (st : State) : State :=
  mkState (isConnected st) (isSpeaking st) (isBusy st) (messages st)
    (error st) (volume st) (audioContextInput st) v (processorRef st)
    (sourceRef st) (nextStartTime st) (audioSources st) (streamRef st)
    (activeSessionRef st) (currentSessionIdRef st) (currentInputTrans st)
    (currentOutputTrans st) (outbound st) (pendingSends st) (playback st)
    (stopped st) (speakingTimers st) (released st) (nextSource st).

Definition set_processorRef (v : option Handle) (st : State) : State :=
  mkState (isConnected st) (isSpeaking st) (isBusy st) (messages st)
    (error st) (volume st) (audioContextInput st) (audioContextOutput st) v
    (sourceRef st) (nextStartTime st) (audioSources st) (streamRef st)
    (activeSessionRef st) (currentSessionIdRef st) (currentInputTrans st)
    (currentOutputTrans st) (outbound st) (pendingSends st) (playback st)
    (stopped st) (speakingTimers st) (released st) (nextSource st).

Definition set_sourceRef (v : option Handle) (st : State) : State :=
  mkState (isConnected st) (isSpeaking st) (isBusy st) (messages st)
    (error st) (volume st) (audioContextInput st) (audioContextOutput st)
    (processorRef st) v (nextStartTime st) (audioSources st) (streamRef st)
    (activeSessionRef st) (currentSessionIdRef st) (currentInputTrans st)
    (currentOutputTrans st) (outbound st) (pendingSends st) (playback st)
    (stopped st) (speakingTimers st) (released st) (nextSource st).

Definition set_nextStartTime (v : R) (st : State) : State :=
  mkState (isConnected st) (isSpeaking st) (isBusy st) (messages st)
    (error st) (volume st) (audioContextInput st) (audioContextOutput st)
    (processorRef st) (sourceRef st) v (audioSources st) (streamRef st)
    (activeSessionRef st) (currentSessionIdRef st) (currentInputTrans st)
    (currentOutputTrans st) (outbound st) (pendingSends st) (playback st)
    (stopped st) (speakingTimers st) (released st) (nextSource st).

Definition set_audioSources (v : gset SourceId) (st : State) : State :=
  mkState (isConnected st) (isSpeaking st) (isBusy st) (messages st)
    (error st) (volume st) (audioContextInput st) (audioContextOutput st)
    (processorRef st) (sourceRef st) (nextStartTime st) v (streamRef st)
    (activeSessionRef st) (currentSessionIdRef st) (currentInputTrans st)
    (currentOutputTrans st) (outbound st) (pendingSends st) (playback st)
    (stopped st) (speakingTimers st) (released st) (nextSource st).

Definition set_streamRef (v : option Handle) (st : State) : State :=
  mkState (isConnected st) (isSpeaking st) (isBusy st) (messages st)
    (error st) (volume st) (audioContextInput st) (audioContextOutput st)
    (processorRef st) (sourceRef st) (nextStartTime st) (audioSources st) v
    (activeSessionRef st) (currentSessionIdRef st) (currentInputTrans st)
    (currentOutputTrans st) (outbound st) (pendingSends st) (playback st)
    (stopped st) (speakingTimers st) (released st) (nextSource st).

Definition set_activeSessionRef (v : option Handle) (st : State) : State :=
  mkState (isConnected st) (isSpeaking st) (isBusy st) (messages st)
    (error st) (volume st) (audioContextInput st) (audioContextOutput st)
    (processorRef st) (sourceRef st) (nextStartTime st) (audioSources st)
    (streamRef st) v (currentSessionIdRef st) (currentInputTrans st)
    (currentOutputTrans st) (outbound st) (pendingSends st) (playback st)
    (stopped st) (speakingTimers st) (released st) (nextSource st).

Definition set_currentSessionIdRef (v : Z) (st : State) : State :=
  mkState (isConnected st) (isSpeaking st) (isBusy st) (messages st)
    (error st) (volume st) (audioContextInput st) (audioContextOutput st)
    (processorRef st) (sourceRef st) (nextStartTime st) (audioSources st)
    (streamRef st) (activeSessionRef st) v (currentInputTrans st)
    (currentOutputTrans st) (outbound st) (pendingSends st) (playback st)
    (stopped st) (speakingTimers st) (released st) (nextSource st).

Definition set_currentInputTrans (v : string) (st : State) : State :=
  mkState (isConnected st) (isSpeaking st) (isBusy st) (messages st)
    (error st) (volume st) (audioContextInput st) (audioContextOutput st)
    (processorRef st) (sourceRef st) (nextStartTime st) (audioSources st)
    (streamRef st) (activeSessionRef st) (currentSessionIdRef st) v
    (currentOutputTrans st) (outbound st) (pendingSends st) (playback st)
    (stopped st) (speakingTimers st) (released st) (nextSource st).

Definition set_currentOutputTrans (v : string) (st : State) : State :=
  mkState (isConnected st) (isSpeaking st) (isBusy st) (messages st)
    (error st) (volume st) (audioContextInput st) (audioContextOutput st)
    (processorRef st) (sourceRef st) (nextStartTime st) (audioSources st)
    (streamRef st) (activeSessionRef st) (currentSessionIdRef st)
    (currentInputTrans st) v (outbound st) (pendingSends st) (playback st)
    (stopped st) (speakingTimers st) (released st) (nextSource st).

Definition set_outbound (v : list AudioFrame) (st : State) : State :=
  mkState (isConnected st) (isSpeaking st) (isBusy st) (messages st)
    (error st) (volume st) (audioContextInput st) (audioContextOutput st)
    (processorRef st) (sourceRef st) (nextStartTime st) (audioSources st)
    (streamRef st) (activeSessionRef st) (currentSessionIdRef st)
    (currentInputTrans st) (currentOutputTrans st) v (pendingSends st)
    (playback st) (stopped st) (speakingTimers st) (released st)
    (nextSource st).

Definition set_pendingSends (v : list (Z * AudioFrame)) (st : State) : State :=
  mkState (isConnected st) (isSpeaking st) (isBusy st) (messages st)
    (error st) (volume st) (audioContextInput st) (audioContextOutput st)
    (processorRef st) (sourceRef st) (nextStartTime st) (audioSources st)
    (streamRef st) (activeSessionRef st) (currentSessionIdRef st)
    (currentInputTrans st) (currentOutputTrans st) (outbound st) v
    (playback st) (stopped st) (speakingTimers st) (released st)
    (nextSource st).

Definition set_playback (v : list PlaybackSource) (st : State) : State :=
  mkState (isConnected st) (isSpeaking st) (isBusy st) (messages st)
    (error st) (volume st) (audioContextInput st) (audioContextOutput st)
    (processorRef st) (sourceRef st) (nextStartTime st) (audioSources st)
    (streamRef st) (activeSessionRef st) (currentSessionIdRef st)
    (currentInputTrans st) (currentOutputTrans st) (outbound st)
    (pendingSends st) v (stopped st) (speakingTimers st) (released st)
    (nextSource st).

Definition set_stopped (v : gset SourceId) (st : State) : State :=
  mkState (isConnected st) (isSpeaking st) (isBusy st) (messages st)
    (error st) (volume st) (audioContextInput st) (audioContextOutput st)
    (processorRef st) (sourceRef st) (nextStartTime st) (audioSources st)
    (streamRef st) (activeSessionRef st) (currentSessionIdRef st)
    (currentInputTrans st) (currentOutputTrans st) (outbound st)
    (pendingSends st) (playback st) v (speakingTimers st) (released st)
    (nextSource st).

Definition set_speakingTimers (v : nat) (st : State) : State :=
  mkState (isConnected st) (isSpeaking st) (isBusy st) (messages st)
    (error st) (volume st) (audioContextInput st) (audioContextOutput st)
    (processorRef st) (sourceRef st) (nextStartTime st) (audioSources st)
    (streamRef st) (activeSessionRef st) (currentSessionIdRef st)
    (currentInputTrans st) (currentOutputTrans st) (outbound st)
    (pendingSends st) (playback st) (stopped st) v (released st)
    (nextSource st).

Definition set_released (v : list Resource) (st : State) : State :=
  mkState (isConnected st) (isSpeaking st) (isBusy st) (messages st)
    (error st) (volume st) (audioContextInput st) (audioContextOutput st)
    (processorRef st) (sourceRef st) (nextStartTime st) (audioSources st)
    (streamRef st) (activeSessionRef st) (currentSessionIdRef st)
    (currentInputTrans st) (currentOutputTrans st) (outbound st)
    (pendingSends st) (playback st) (stopped st) (speakingTimers st) v
    (nextSource st).

Definition set_nextSource (v : SourceId) (st : State) : State :=
  mkState (isConnected st) (isSpeaking st) (isBusy st) (messages st)
    (error st) (volume st) (audioContextInput st) (audioContextOutput st)
    (processorRef st) (sourceRef st) (nextStartTime st) (audioSources st)
    (streamRef st) (activeSessionRef st) (currentSessionIdRef st)
    (currentInputTrans st) (currentOutputTrans st) (outbound st)
    (pendingSends st) (playback st) (stopped st) (speakingTimers st)
    (released st) v.

(** The component as first rendered: [useState] and [useRef] initial values,
    nothing yet asked of the browser. *)
Definition initialState : State :=
  mkState false false false [] None 0 None None None None 0 ∅ None None 0%Z
    "" "" [] [] [] ∅ 0%nat [] 0%nat.

(** ** Handlers *)

Section Handlers.
Context `{Builtins}.

Definition arrayBufferToBase64 (bytes : string) : string := btoa bytes.
Definition base64ToUint8Array (base64 : string) : option string := atob base64.

(** [audioSources.current.forEach(src => src.stop());
     audioSources.current.clear();] *)
Definition stopAllSources (st : State) : State :=
  set_audioSources ∅ (set_stopped (stopped st ∪ audioSources st) st).

(** *** Transcript aggregation *)

Definition stopCommand (lowerText : string) : bool :=
  includes lowerText "ติฏฺฐตุ" || includes lowerText "tiṭṭhatu"
  || includes lowerText "titthatu".

Definition handleTranscription (now : Z) (message : LiveServerMessage)
    (st : State) : State :=
  let inputTx := serverContent message ≫= inputTranscription in
  let outputTx := serverContent message ≫= outputTranscription in
  let turnComplete := from_option turnComplete false (serverContent message) in
  let st :=
    match inputTx with
    | Some tx =>
        let st := set_currentInputTrans
                    (js_concat (currentInputTrans st) (tx_text tx)) st in
        let st := set_messages
                    (updateMessageState now user (currentInputTrans st) false
                       (messages st)) st in
        (* client-side stop command detection *)
        let lowerText := toLowerCase (currentInputTrans st) in
        if stopCommand lowerText
        then set_isSpeaking false (stopAllSources st)
        else st
    | None => st
    end in
  let st :=
    match outputTx with
    | Some tx =>
        let st := set_currentOutputTrans
                    (js_concat (currentOutputTrans st) (tx_text tx)) st in
        set_messages
          (updateMessageState now model (currentOutputTrans st) false
             (messages st)) st
    | None => st
    end in
  if turnComplete then
    let st :=
      if truthy (currentInputTrans st)
      then set_currentInputTrans ""
             (set_messages
                (updateMessageState now user (currentInputTrans st) true
                   (messages st)) st)
      else st in
    if truthy (currentOutputTrans st)
    then set_currentOutputTrans ""
           (set_messages
              (updateMessageState now model (currentOutputTrans st) true
                 (messages st)) st)
    else st
  else st.

(** *** Playback scheduling *)

(** [playAudioChunk] up to its [await]: the speaking flag is raised and the
    chunk decoded. [None] is an exception on the way ([atob] or the decoder),
    which the [catch] of [playAudioChunk] only logs. *)
Definition playAudioChunk_begin (base64Data : string) (st : State)
    : State * option AudioBuffer :=
  let st := set_isSpeaking true st in
  match base64ToUint8Array base64Data with
  | None => (st, None)
  | Some bytes => (st, decodeAudioData bytes SAMPLE_RATE_OUTPUT)
  end.

(** [playAudioChunk] after its [await]: a new buffer source is started at
    [max(ctx.currentTime, nextStartTime)], the cursor moves to the end of
    the buffer, and the source joins the active set. *)
Definition playAudioChunk_resume (buf : AudioBuffer) (currentTime : R)
    (st : State) : State :=
  let source := nextSource st in
  let st := set_nextSource (S source) st in
  let start := Rmax currentTime (nextStartTime st) in
  let st := set_playback (playback st ++ [mkPlaybackSource source buf start]) st in
  let st := set_nextStartTime (start + duration buf) st in
  set_audioSources (audioSources st ∪ {[source]}) st.

(** [source.onended] *)
Definition onended (source : SourceId) (st : State) : State :=
  let st := set_audioSources (audioSources st ∖ {[source]}) st in
  if (size (audioSources st) =? 0)%nat
  then set_speakingTimers (S (speakingTimers st)) st
  else st.

(** The callback of [setTimeout(() => setIsSpeaking(false), 100)]. *)
Definition speakingTimeout (st : State) : State :=
  match speakingTimers st with
  | O => st
  | S n => set_isSpeaking false (set_speakingTimers n st)
  end.

(** *** Transport callbacks, as [connect] registers them for [sessionId] *)

Definition onopen (sessionId : Z) (source processor : Handle) (st : State)
    : State :=
  if negb (currentSessionIdRef st =? sessionId)%Z then st else
  let st := set_isConnected true st in
  let st := set_messages [] st in
  match audioContextInput st with
  | None => st
  | Some _ => set_processorRef (Some processor) (set_sourceRef (Some source) st)
  end.

(** [scriptProcessor.onaudioprocess]; [onLine] is [navigator.onLine]. *)
Definition onaudioprocess (sessionId : Z) (onLine : bool)
    (inputData : list R) (st : State) : State :=
  (* strict identity check in the hot loop *)
  if negb (currentSessionIdRef st =? sessionId)%Z then st else
  (* prevent feedback *)
  if (0 <? size (audioSources st))%nat then st else
  (* volume meter *)
  let st := set_volume (volumeLevel inputData) st in
  let int16 := List.map (fun x => toInt16 (x * 32768)) inputData in
  let base64Data := arrayBufferToBase64 (int16_buffer int16) in
  if truthy base64Data && onLine
  then set_pendingSends
         (pendingSends st
            ++ [(sessionId, mkAudioFrame "audio/pcm;rate=16000" base64Data)]) st
  else st.

(** The reaction that the tick registers with [sessionPromise.then]. *)
Definition sendRealtimeInput (sessionId : Z) (frame : AudioFrame)
    (st : State) : State :=
  if (currentSessionIdRef st =? sessionId)%Z
  then set_outbound (outbound st ++ [frame]) st
  else st.

(** The branch of [onmessage] under [message.serverContent?.interrupted]. *)
Definition interrupt (st : State) : State :=
  set_isSpeaking false
    (set_currentOutputTrans ""
       (set_nextStartTime 0 (stopAllSources st))).

(** [onmessage]. The body runs to its end first; the part of
    [playAudioChunk] behind the [await] follows in the same turn of the
    event loop, reading [ctx.currentTime] as [currentTime]. *)
Definition onmessage (sessionId : Z) (now : Z) (currentTime : R)
    (message : LiveServerMessage) (st : State) : State :=
  if negb (currentSessionIdRef st =? sessionId)%Z then st else
  let st := handleTranscription now message st in
  let audioData := serverContent message ≫= audio in
  let '(st, decoding) :=
    match audioData, audioContextOutput st with
    | Some base64Data, Some _ =>
        if truthy base64Data then playAudioChunk_begin base64Data st
        else (st, None)
    | _, _ => (st, None)
    end in
  let st :=
    if from_option interrupted false (serverContent message)
    then interrupt st
    else st in
  match decoding with
  | Some buf => playAudioChunk_resume buf currentTime st
  | None => st
  end.

Definition onclose (sessionId : Z) (st : State) : State :=
  if negb (currentSessionIdRef st =? sessionId)%Z then st else
  set_activeSessionRef None (set_isSpeaking false (set_isConnected false st)).

(** *** Error classification *)

Definition errorText (e : ErrorSignal) : string :=
  match e with
  | ErrorInstance message => message
  | ObjectWithMessage message => message
  | PlainObject (JsonText json) str =>
      if truthy json && negb (String.eqb json "{}") then json else str
  | PlainObject _ str => str
  | Primitive str => str
  end.

Definition SERVER_BUSY : string :=
  "ระบบกำลังทำงานหนัก กรุณาลองใหม่ในอีกสักครู่ (Server Busy)".
Definition CONNECTION_ERROR : string :=
  "เกิดข้อผิดพลาดในการเชื่อมต่อ (Connection Error)".

Definition isServiceUnavailable (lowerErr : string) : bool :=
  includes lowerErr "service is currently unavailable"
  || includes lowerErr "503".

Definition isSuppressed (lowerErr : string) : bool :=
  includes lowerErr "network error"
  || includes lowerErr "networkerror"
  || includes lowerErr "closed"
  || includes lowerErr "aborted"
  || includes lowerErr "entity was not found"
  || includes lowerErr "connection failed"
  || includes lowerErr "undefined".

Definition resetConnection (st : State) : State :=
  set_activeSessionRef None (set_isSpeaking false (set_isConnected false st)).

Definition onerror (sessionId : Z) (e : ErrorSignal) (st : State) : State :=
  if negb (currentSessionIdRef st =? sessionId)%Z then st else
  let errMsg := errorText e in
  let lowerErr := toLowerCase errMsg in
  if isServiceUnavailable lowerErr
  then resetConnection (set_error (Some SERVER_BUSY) st)
  else if isSuppressed lowerErr
  then resetConnection st
  else resetConnection (set_error (Some CONNECTION_ERROR) st).
End Handlers.

(** ** Life cycle *)

Section Lifecycle.
Context `{Builtins}.

(** [cleanupAudioAndSession]. Its [await]s wait for the browser to let go
    of the session and the contexts; the steps are taken in source order. *)
Definition cleanupAudioAndSession (st : State) : State :=
  (* 1. stop audio flow first *)
  let st :=
    match processorRef st with
    | Some p => set_processorRef None
                  (set_released (released st ++ [ProcessorNode p]) st)
    | None => st
    end in
  let st :=
    match sourceRef st with
    | Some s => set_sourceRef None
                  (set_released (released st ++ [StreamSourceNode s]) st)
    | None => st
    end in
  let st :=
    match streamRef st with
    | Some s => set_streamRef None
                  (set_released (released st ++ [StreamTracks s]) st)
    | None => st
    end in
  (* 2. close the live session *)
  let session := activeSessionRef st in
  let st := set_activeSessionRef None st in
  let st :=
    match session with
    | Some s => set_released (released st ++ [LiveSession s]) st
    | None => st
    end in
  (* 3. close contexts *)
  let st :=
    match audioContextInput st with
    | Some c => set_audioContextInput None
                  (set_released (released st ++ [Context c]) st)
    | None => st
    end in
  let st :=
    match audioContextOutput st with
    | Some c => set_audioContextOutput None
                  (set_released (released st ++ [Context c]) st)
    | None => st
    end in
  (* 4. clear active sources *)
  stopAllSources st.

(** [connect], from the call to the end of the cleanup it waits for.
    [isBusy] is the constant of the render whose closure is called,
    [onLine] is [navigator.onLine] and [now] is [Date.now()]. *)
Definition connect (isBusy onLine : bool) (now : Z) (st : State) : State :=
  if isBusy then st else
  let st := set_isBusy true st in
  if negb onLine
  then set_isBusy false (set_error (Some "No internet connection.") st)
  else
    (* 1. invalidate previous sessions immediately *)
    let sessionId := now in
    let st := set_currentSessionIdRef sessionId st in
    let st := set_error None st in
    cleanupAudioAndSession st.

(** 2. Setup audio contexts: the two contexts the browser made. *)
Definition connect_audioContexts (input output : Handle) (st : State)
    : State :=
  set_audioContextOutput (Some output) (set_audioContextInput (Some input) st).

(** 3. [getUserMedia] resolved with [stream]. *)
Definition connect_gotUserMedia (sessionId : Z) (stream : Handle)
    (st : State) : State :=
  if negb (currentSessionIdRef st =? sessionId)%Z
  then set_isBusy false (set_released (released st ++ [StreamTracks stream]) st)
  else set_streamRef (Some stream) st.

(** 4. [sessionPromise] resolved with [session]; the [finally] block
    follows. *)
Definition connect_gotSession (sessionId : Z) (session : Handle)
    (st : State) : State :=
  if negb (currentSessionIdRef st =? sessionId)%Z
  then set_released (released st ++ [LiveSession session]) st
  else set_isBusy false (set_activeSessionRef (Some session) st).

Definition CONNECT_BUSY : string :=
  "ระบบกำลังทำงานหนัก กรุณาลองใหม่ (Server Busy)".
Definition CONNECT_FAILED : string :=
  "การเชื่อมต่อล้มเหลว กรุณาตรวจสอบอินเทอร์เน็ต (Connection Failed)".

(** The [catch] and [finally] blocks of [connect]; [msg] is the text of
    what was thrown. *)
Definition connect_catch (sessionId : Z) (msg : string) (st : State)
    : State :=
  if (currentSessionIdRef st =? sessionId)%Z then
    let st :=
      if includes (toLowerCase msg) "unavailable" || includes msg "503"
      then set_error (Some CONNECT_BUSY) st
      else if negb (includes (toLowerCase msg) "aborted")
      then set_error (Some CONNECT_FAILED) st
      else st in
    let st := set_isConnected false st in
    set_isBusy false st
  else st.

Definition disconnect (isBusy : bool) (st : State) : State :=
  if isBusy then st else
  let st := set_isBusy true st in
  (* invalidate the id immediately to stop all incoming callbacks *)
  let st := set_currentSessionIdRef 0%Z st in
  let st := cleanupAudioAndSession st in
  set_isBusy false (set_volume 0 (set_isSpeaking false (set_isConnected false st))).

(** ** Callbacks and events *)

(** Every continuation that [connect] leaves behind for one [sessionId]. *)
Inductive Callback :=
  | Opened (source processor : Handle)                 (* onopen *)
  | AudioProcess (onLine : bool) (inputData : list R)  (* onaudioprocess *)
  | SessionThen (frame : AudioFrame)                   (* sessionPromise.then *)
  | Received (now : Z) (currentTime : R) (message : LiveServerMessage)
                                                       (* onmessage *)
  | Closed                                             (* onclose *)
  | Errored (e : ErrorSignal)                          (* onerror *)
  | GotUserMedia (stream : Handle)        (* await getUserMedia(...) *)
  | GotSession (session : Handle)         (* await sessionPromise *)
  | Thrown (msg : string).                (* catch (err) *)

Definition fire (sessionId : Z) (cb : Callback) (st : State) : State :=
  match cb with
  | Opened source processor => onopen sessionId source processor st
  | AudioProcess onLine inputData => onaudioprocess sessionId onLine inputData st
  | SessionThen frame => sendRealtimeInput sessionId frame st
  | Received now currentTime message =>
      onmessage sessionId now currentTime message st
  | Closed => onclose sessionId st
  | Errored e => onerror sessionId e st
  | GotUserMedia stream => connect_gotUserMedia sessionId stream st
  | GotSession session => connect_gotSession sessionId session st
  | Thrown msg => connect_catch sessionId msg st
  end.

(** Everything that can happen to the component between two renders. *)
Inductive Event :=
  | Connect (isBusy onLine : bool) (now : Z)
  | AudioContexts (input output : Handle)
  | Disconnect (isBusy : bool)
  | Fire (sessionId : Z) (cb : Callback)
  | SessionResolved          (* the oldest waiting reaction runs *)
  | Ended (source : SourceId)
  | TimerFired.

Definition step (st : State) (ev : Event) : State :=
  match ev with
  | Connect isBusy onLine now => connect isBusy onLine now st
  | AudioContexts input output => connect_audioContexts input output st
  | Disconnect isBusy => disconnect isBusy st
  | Fire sessionId cb => fire sessionId cb st
  | SessionResolved =>
      match pendingSends st with
      | [] => st
      | (sessionId, frame) :: rest =>
          sendRealtimeInput sessionId frame (set_pendingSends rest st)
      end
  | Ended source => onended source st
  | TimerFired => speakingTimeout st
  end.

Definition run (st : State) (evs : list Event) : State :=
  fold_left step evs st.
End Lifecycle.

(** ** The built-ins on ASCII text

    An instance of [Builtins] that computes. On text made of ASCII characters
    it is what the browser does; bytes above 127 are left as they are by
    [ascii_toLowerCase] and are never white space for [ascii_trim]. *)

Local Open Scope Z_scope.

Definition ascii_lower (c : ascii) : ascii :=
  let n := N_of_ascii c in
  if ((65 <=? n) && (n <=? 90))%N then ascii_of_N (n + 32) else c.

Fixpoint ascii_toLowerCase (s : string) : string :=
  match s with
  | EmptyString => EmptyString
  | String c rest => String (ascii_lower c) (ascii_toLowerCase rest)
  end.

(** Tab, line feed, vertical tab, form feed, carriage return, space. *)
Definition ascii_space (c : ascii) : bool :=
  let n := N_of_ascii c in
  ((9 <=? n) && (n <=? 13) || (n =? 32))%N.

Fixpoint trimStart (s : string) : string :=
  match s with
  | EmptyString => EmptyString
  | String c rest => if ascii_space c then trimStart rest else s
  end.

Fixpoint trimEnd (s : string) : string :=
  match s with
  | EmptyString => EmptyString
  | String c rest =>
      match trimEnd rest with
      | EmptyString => if ascii_space c then EmptyString else String c EmptyString
      | kept => String c kept
      end
  end.

Definition ascii_trim (s : string) : string := trimEnd (trimStart s).

Definition base64_alphabet : string :=
  "ABCDEFGHIJKLMNOPQRSTUVWXYZabcdefghijklmnopqrstuvwxyz0123456789+/".

Definition base64_char (n : Z) : ascii :=
  default "="%char (String.get (Z.to_nat n) base64_alphabet).

Fixpoint base64_encode (bytes : list Z) : string :=
  match bytes with
  | [] => EmptyString
  | [a] =>
      String (base64_char (a / 4)) (String (base64_char (a mod 4 * 16)) "==")
  | [a; b] =>
      String (base64_char (a / 4))
        (String (base64_char (a mod 4 * 16 + b / 16))
           (String (base64_char (b mod 16 * 4)) "="))
  | a :: b :: c :: rest =>
      String (base64_char (a / 4))
        (String (base64_char (a mod 4 * 16 + b / 16))
           (String (base64_char (b mod 16 * 4 + c / 64))
              (String (base64_char (c mod 64)) (base64_encode rest))))
  end.

Definition ascii_btoa (binary : string) : string :=
  base64_encode (List.map Z_of_byte (list_ascii_of_string binary)).

(** The value of a character of the base64 alphabet. *)
Definition base64_value (c : ascii) : option Z :=
  let n := Z_of_byte c in
  if (65 <=? n) && (n <=? 90) then Some (n - 65)
  else if (97 <=? n) && (n <=? 122) then Some (n - 71)
  else if (48 <=? n) && (n <=? 57) then Some (n + 4)
  else if n =? 43 then Some 62
  else if n =? 47 then Some 63
  else None.

Fixpoint base64_decode (sextets : list Z) : list Z :=
  match sextets with
  | a :: b :: c :: d :: rest =>
      (a * 4 + b / 16) :: (b mod 16 * 16 + c / 4) :: (c mod 4 * 64 + d)
        :: base64_decode rest
  | [a; b; c] => [a * 4 + b / 16; b mod 16 * 16 + c / 4]
  | [a; b] => [a * 4 + b / 16]
  | _ => []
  end.

(** Up to two trailing [=] of a text whose length is a multiple of four. *)
Definition strip_padding (l : list ascii) : list ascii :=
  if (length l mod 4 =? 0)%nat then
    match rev l with
    | "="%char :: "="%char :: body => rev body
    | "="%char :: body => rev body
    | _ => l
    end
  else l.

Definition ascii_atob (base64 : string) : option string :=
  let chars :=
    strip_padding
      (List.filter (fun c => negb (ascii_space c) || (Z_of_byte c =? 11))
         (list_ascii_of_string base64)) in
  if (length chars mod 4 =? 1)%nat then None
  else
    sextets ← mapM base64_value chars;
    Some (string_of_list_ascii (List.map byte_of_Z (base64_decode sextets))).

Definition ascii_builtins : Builtins :=
  {| toLowerCase := ascii_toLowerCase;
     trim := ascii_trim;
     btoa := ascii_btoa;
     atob := ascii_atob |}.

(** ** Vocabulary of the statements *)

Local Open Scope Z_scope.

(** What the rest of the application and the user can see of a state: the
    React observables, the live session handle, the playback schedule and
    the traffic to the transport. Left out are the busy flag and the log of
    released handles. *)
Record Observable := mkObservable {
  obs_isConnected : bool;
  obs_isSpeaking : bool;
  obs_volume : R;
  obs_messages : list Message;
  obs_error : option string;
  obs_activeSession : option Handle;
  obs_nextStartTime : R;
  obs_audioSources : gset SourceId;
  obs_playback : list PlaybackSource;
  obs_stopped : gset SourceId;
  obs_speakingTimers : nat;
  obs_outbound : list AudioFrame;
  obs_pendingSends : list (Z * AudioFrame);
  obs_inputTrans : string;
  obs_outputTrans : string
}.

Definition observable (st : State) : Observable :=
  mkObservable (isConnected st) (isSpeaking st) (volume st) (messages st)
    (error st) (activeSessionRef st) (nextStartTime st) (audioSources st)
    (playback st) (stopped st) (speakingTimers st) (outbound st)
    (pendingSends st) (currentInputTrans st) (currentOutputTrans st).

(** The messages of role [r] that are still open. *)
Definition pending (r : Role) (l : list Message) : list Message :=
  List.filter (fun m => bool_decide (role m = r) && negb (isComplete m)) l.

(** The last entry is an open message of role [r]. *)
Definition trailingPending (r : Role) (l : list Message) : bool :=
  match last l with
  | Some m => bool_decide (role m = r) && negb (isComplete m)
  | None => false
  end.

(** The clock readings of the [connect] calls of a trace that get past the
    busy guard and the connectivity check, oldest first. *)
Fixpoint mintReadings (evs : list Event) : list Z :=
  match evs with
  | [] => []
  | Connect false true now :: rest => now :: mintReadings rest
  | _ :: rest => mintReadings rest
  end.

(** The value of [currentSessionIdRef] right after each of those calls. *)
Fixpoint mintedTokens `{Builtins} (st : State) (evs : list Event) : list Z :=
  match evs with
  | [] => []
  | ev :: rest =>
      let st' := step st ev in
      match ev with
      | Connect false true _ => currentSessionIdRef st' :: mintedTokens st' rest
      | _ => mintedTokens st' rest
      end
  end.

(** *** The classification table of the error handler

    The three classes and a classifier over a table of patterns, in the
    words of the specification; [claimedSuppressed] is the table as the
    specification lists it, [suppressedPatterns] the same table with the
    pattern the handler also tests. *)
Inductive ErrorClass := Busy | TransientSuppressed | Fatal.

Definition busyPatterns : list string :=
  ["service is currently unavailable"; "503"]%string.

Definition claimedSuppressed : list string :=
  ["network error"; "closed"; "aborted"; "entity was not found";
   "connection failed"; "undefined"]%string.

Definition suppressedPatterns : list string :=
  "networkerror"%string :: claimedSuppressed.

Definition classify (suppressed : list string) (lowerErr : string)
    : ErrorClass :=
  if existsb (includes lowerErr) busyPatterns then Busy
  else if existsb (includes lowerErr) suppressed then TransientSuppressed
  else Fatal.

(** The notice each class leaves in the error observable. *)
Definition noticeOf (c : ErrorClass) (previous : option string)
    : option string :=
  match c with
  | Busy => Some SERVER_BUSY
  | TransientSuppressed => previous
  | Fatal => Some CONNECTION_ERROR
  end.

(** ** Sample traffic *)

Definition outputFragment (s : string) : LiveServerMessage :=
  mkLiveServerMessage
    (Some (mkServerContent None None (Some (mkTranscription (Some s))) false false)).

Definition inputFragment (s : string) : LiveServerMessage :=
  mkLiveServerMessage
    (Some (mkServerContent None (Some (mkTranscription (Some s))) None false false)).

Definition turnCompleteSignal : LiveServerMessage :=
  mkLiveServerMessage (Some (mkServerContent None None None true false)).

Definition audioChunk (base64Data : string) : LiveServerMessage :=
  mkLiveServerMessage
    (Some (mkServerContent (Some base64Data) None None false false)).

(** A connect attempt that goes through: contexts [1] and [2], stream [3],
    session [4], and the capture nodes [5] and [6] on [onopen]. *)
Definition openSession (sessionId : Z) : list Event :=
  [Connect false true sessionId; AudioContexts 1%nat 2%nat;
   Fire sessionId (GotUserMedia 3%nat); Fire sessionId (GotSession 4%nat);
   Fire sessionId (Opened 5%nat 6%nat)].

(** Two samples of silence, base64 encoded. *)
Definition silentChunk : string := "AAAAAA==".

(** The state of [openSession 1000] once a chunk of audio is playing. *)
Definition speakingState : State :=
  @run ascii_builtins initialState
    (openSession 1000
       ++ [Fire 1000 (Received 1001 0%R (audioChunk silentChunk))]).

(** What Firefox reports when a fetch fails. *)
Definition fetchFailure : ErrorSignal :=
  Primitive "NetworkError when attempting to fetch resource.".

(** The turn of the model that the specification takes as its example. *)
Definition modelTurn : list Event :=
  [Fire 1000 (Received 1001 0%R (outputFragment "na"));
   Fire 1000 (Received 1002 0%R (outputFragment "namo"));
   Fire 1000 (Received 1003 0%R (outputFragment "namo buddhaya"));
   Fire 1000 (Received 1004 0%R turnCompleteSignal)].

(** The user speaks, the model starts to answer, the user goes on. *)
Definition interleavedTurn : list Event :=
  [Fire 1000 (Received 1001 0%R (inputFragment "hi"));
   Fire 1000 (Received 1002 0%R (outputFragment "yo"));
   Fire 1000 (Received 1003 0%R (inputFragment " there"))].

(** The user speaks, the model answers, the turn completes. *)
Definition ordinaryTurn : list Event :=
  [Fire 1000 (Received 1001 0%R (inputFragment "hi"));
   Fire 1000 (Received 1002 0%R (outputFragment "yo"));
   Fire 1000 (Received 1003 0%R turnCompleteSignal)].

(** The model is heard and its transcript has started. *)
Definition modelSpeaking : list Event :=
  [Fire 1000 (Received 1001 0%R (audioChunk silentChunk));
   Fire 1000 (Received 1002 0%R (outputFragment "sadhu"))].

(** * Vocabulary of the further properties *)

Local Open Scope R_scope.
Local Open Scope list_scope.

(** The signed reading of two little-endian bytes. *)
Definition int16_of_pair (lo hi : ascii) : Z :=
  let u := (Z_of_byte lo + 256 * Z_of_byte hi)%Z in
  if (u <? 32768)%Z then u else (u - 65536)%Z.

(** What one reference holds, as the resource teardown gives back. *)
Definition held (ref : option Handle) (kind : Handle -> Resource)
    : list Resource :=
  match ref with
  | Some h => [kind h]
  | None => []
  end.

(** Everything a state holds, in the order teardown releases it. *)
Definition teardownOrder (st : State) : list Resource :=
  held (processorRef st) ProcessorNode
  ++ held (sourceRef st) StreamSourceNode
  ++ held (streamRef st) StreamTracks
  ++ held (activeSessionRef st) LiveSession
  ++ held (audioContextInput st) Context
  ++ held (audioContextOutput st) Context.

(** What [onmessage] has no business with: the session identity, the
    connection flags and notices, the capture side and the handles. *)
Definition lifecycleView (st : State) :=
  (currentSessionIdRef st, isConnected st, isBusy st, error st, volume st,
   outbound st, pendingSends st, released st,
   (activeSessionRef st, streamRef st, processorRef st, sourceRef st,
    audioContextInput st, audioContextOutput st)).

(** When a scheduled source falls silent by itself. *)
Definition sourceEnd (p : PlaybackSource) : R :=
  scheduledStart p + duration (buffer p).

(** [st'] schedules nothing new over [st]: the same sources were started,
    the active ones are among those active before, and the cursor is where
    it was, or at zero with no source active. *)
Definition calm (st st' : State) : Prop :=
  playback st' = playback st
  /\ nextSource st' = nextSource st
  /\ audioSources st' ⊆ audioSources st
  /\ (nextStartTime st' = nextStartTime st
      \/ (nextStartTime st' = 0 /\ audioSources st' = ∅)).

(** What the scheduler keeps true of a state. *)
Record Scheduled (st : State) : Prop := mkScheduled {
  cursor_nonneg : 0 <= nextStartTime st;
  starts_nonneg :
    Forall (fun p => 0 <= scheduledStart p /\ 0 < duration (buffer p))
      (playback st);
  ids_increase : StronglySorted lt (List.map sourceId (playback st));
  ids_fresh : Forall (fun p => (sourceId p < nextSource st)%nat) (playback st);
  active_started :
    forall i, i ∈ audioSources st ->
      exists p, p ∈ playback st /\ sourceId p = i;
  active_end_by_cursor :
    forall p, p ∈ playback st -> sourceId p ∈ audioSources st ->
      sourceEnd p <= nextStartTime st;
  active_apart :
    forall p q, p ∈ playback st -> q ∈ playback st ->
      (sourceId p < sourceId q)%nat ->
      sourceId p ∈ audioSources st -> sourceId q ∈ audioSources st ->
      sourceEnd p <= scheduledStart q
}.

(** [next] keeps every entry of [prev] but possibly the last, in place, and
    is not shorter. *)
Definition retains (prev next : list Message) : Prop :=
  removelast prev `prefix_of` next /\ (length prev <= length next)%nat.

(** One fragment of the model's transcript as [onmessage] receives it. *)
Definition modelFragment (sessionId : Z) (f : Z * R * string) : Event :=
  Fire sessionId (Received f.1.1 f.1.2 (outputFragment f.2)).

(** The texts of a list of fragments, one after the other. *)
Definition fragmentsText (fs : list (Z * R * string)) : string :=
  fold_left (fun acc f => acc +:+ f.2) fs "".

(** The server preempts its own utterance. *)
Definition interruptedSignal : LiveServerMessage :=
  mkLiveServerMessage (Some (mkServerContent None None None false true)).

(** What [onmessage] shares with [handleTranscription] alone. *)
Definition transcriptView (st : State) := (messages st, currentInputTrans st).

(** A capture tick brings a full buffer of [BUFFER_SIZE] samples. *)
Definition fullBuffers (ev : Event) : Prop :=
  match ev with
  | Fire _ (AudioProcess _ inputData) => length inputData = BUFFER_SIZE
  | _ => True
  end.

(** A message that carries a chunk of audio and the interrupted flag. *)
Definition interruptedChunk (base64Data : string) : LiveServerMessage :=
  mkLiveServerMessage
    (Some (mkServerContent (Some base64Data) None None false true)).

(** What the capture tick queues for [inputData]. *)
Definition tickFrame `{Builtins} (inputData : list R) : AudioFrame :=
  mkAudioFrame "audio/pcm;rate=16000"
    (arrayBufferToBase64
       (int16_buffer (List.map (fun x => toInt16 (x * 32768)) inputData))).

(** * Properties *)

Local Open Scope R_scope.
Local Open Scope list_scope.

(** ** The volume meter *)

Section VolumeMeter.

Lemma fold_squares_nonneg (l : list R) (acc : R) :
  0 <= acc -> 0 <= fold_left (fun sum x => sum + x * x) l acc.
Proof.
  revert acc; induction l as [|x l IH]; intros acc Hacc; simpl.
  - exact Hacc.
  - apply IH. pose proof (Rle_0_sqr x) as Hx. unfold Rsqr in Hx. lra.
Qed.

Lemma sumSquares_nonneg (l : list R) : 0 <= sumSquares l.
Proof. apply fold_squares_nonneg; lra. Qed.

Lemma fold_squares_const (c : R) (l : list R) (acc : R) :
  Forall (fun x => x * x = c) l ->
  fold_left (fun sum x => sum + x * x) l acc = acc + INR (length l) * c.
Proof.
  intros Hall; revert acc; induction Hall as [|x l Hx _ IH]; intros acc.
  - simpl. lra.
  - cbn [fold_left]. rewrite IH, Hx.
    change (length (x :: l)) with (S (length l)). rewrite S_INR. lra.
Qed.

Lemma length_pos_INR (l : list R) : l <> [] -> 0 < INR (length l).
Proof.
  intros Hne. destruct l as [|x l]; [congruence|].
  apply lt_0_INR. simpl. lia.
Qed.

Lemma rms_nonneg (l : list R) : 0 <= rms l.
Proof. apply sqrt_pos. Qed.

Lemma volumeLevel_bounds (l : list R) : 0 <= volumeLevel l <= 1.
Proof.
  unfold volumeLevel. pose proof (rms_nonneg l) as Hr. split.
  - apply Rmin_glb; lra.
  - apply Rmin_r.
Qed.

Lemma volumeLevel_silence (l : list R) :
  l <> [] -> Forall (fun x => x = 0) l -> volumeLevel l = 0.
Proof.
  intros Hne Hz. unfold volumeLevel, rms, sumSquares.
  rewrite (fold_squares_const 0).
  - replace ((0 + INR (length l) * 0) / INR (length l)) with 0
      by (unfold Rdiv; lra).
    rewrite sqrt_0, Rmult_0_l. apply Rmin_left; lra.
  - eapply Forall_impl; [exact Hz|]. intros x ->. lra.
Qed.

Lemma sqr_of_unit_magnitude (x : R) : Rabs x = 1 -> x * x = 1.
Proof.
  intros Hx. unfold Rabs in Hx. destruct (Rcase_abs x); nra.
Qed.

Lemma volumeLevel_full_scale (l : list R) :
  l <> [] -> Forall (fun x => Rabs x = 1) l -> volumeLevel l = 1.
Proof.
  intros Hne Hone. unfold volumeLevel, rms, sumSquares.
  rewrite (fold_squares_const 1).
  - pose proof (length_pos_INR l Hne) as Hlen.
    replace ((0 + INR (length l) * 1) / INR (length l)) with 1
      by (field; lra).
    rewrite sqrt_1. apply Rmin_right; lra.
  - eapply Forall_impl; [exact Hone|]. intros x. apply sqr_of_unit_magnitude.
Qed.

End VolumeMeter.

(** ** The capture tick *)

Section CaptureTick.
Context `{Builtins}.

Lemma stale_token (st : State) (sessionId : Z) :
  currentSessionIdRef st <> sessionId ->
  (currentSessionIdRef st =? sessionId)%Z = false.
Proof. intros Hne. apply Z.eqb_neq. exact Hne. Qed.

Lemma sources_active (st : State) :
  audioSources st <> ∅ -> (0 <? size (audioSources st))%nat = true.
Proof.
  intros Hne. apply Nat.ltb_lt.
  destruct (decide (size (audioSources st) = 0%nat)) as [Hz|Hz]; [|lia].
  apply size_empty_inv in Hz. apply leibniz_equiv in Hz. contradiction.
Qed.

Lemma tick_measures (sessionId : Z) (onLine : bool) (inputData : list R)
    (st : State) :
  currentSessionIdRef st = sessionId ->
  audioSources st = ∅ ->
  volume (onaudioprocess sessionId onLine inputData st) = volumeLevel inputData.
Proof.
  intros Htok Hempty. unfold onaudioprocess.
  rewrite Htok, Z.eqb_refl, Hempty, size_empty. cbn [negb Nat.ltb Nat.leb].
  destruct (truthy _ && onLine); reflexivity.
Qed.

(** C9. On a tick that gets past the identity check and the feedback
    guard, the value handed to [setVolume] lies in the unit interval for
    every non-empty buffer of samples, of whatever magnitude; it is
    exactly 0 when every sample is 0 and exactly 1 when every sample has
    magnitude 1. *)
Theorem volume_within_unit_interval (sessionId : Z) (onLine : bool)
    (inputData : list R) (st : State) :
  currentSessionIdRef st = sessionId ->
  audioSources st = ∅ ->
  inputData <> [] ->
  0 <= volume (onaudioprocess sessionId onLine inputData st) <= 1
  /\ (Forall (fun x => x = 0) inputData ->
      volume (onaudioprocess sessionId onLine inputData st) = 0)
  /\ (Forall (fun x => Rabs x = 1) inputData ->
      volume (onaudioprocess sessionId onLine inputData st) = 1).
Proof.
  intros Htok Hempty Hne.
  rewrite (tick_measures _ _ _ _ Htok Hempty).
  split; [apply volumeLevel_bounds|]. split.
  - apply volumeLevel_silence; exact Hne.
  - apply volumeLevel_full_scale; exact Hne.
Qed.

Lemma feedback_guard (sessionId : Z) (onLine : bool) (inputData : list R)
    (st : State) :
  audioSources st <> ∅ ->
  onaudioprocess sessionId onLine inputData st = st.
Proof.
  intros Hact. unfold onaudioprocess.
  destruct (negb _); [reflexivity|].
  rewrite (sources_active _ Hact). reflexivity.
Qed.

(** C2, as the code has it. While a playback source is active the tick
    returns at the feedback guard: nothing of the state changes, so the
    volume observable keeps its value and no frame is queued for or sent
    to the transport. *)
Theorem echo_guard_skips_tick (sessionId : Z) (onLine : bool)
    (inputData : list R) (st : State) :
  audioSources st <> ∅ ->
  onaudioprocess sessionId onLine inputData st = st.
Proof. apply feedback_guard. Qed.

End CaptureTick.

Lemma volume_within_unit_interval_witness :
  let st := @run ascii_builtins initialState (openSession 1000) in
  let inputData := [1; -1] in
  (currentSessionIdRef st = 1000%Z /\ audioSources st = ∅ /\ inputData <> [])
  /\ 0 <= volume (@onaudioprocess ascii_builtins 1000 true inputData st) <= 1.
Proof.
  intros st inputData.
  assert (Htok : currentSessionIdRef st = 1000%Z) by reflexivity.
  assert (Hempty : audioSources st = ∅) by (vm_compute; reflexivity).
  assert (Hne : inputData <> []) by discriminate.
  split; [auto|].
  exact (proj1 (@volume_within_unit_interval ascii_builtins 1000 true
                  inputData st Htok Hempty Hne)).
Defined.

Lemma echo_guard_skips_tick_witness :
  audioSources speakingState <> ∅
  /\ @onaudioprocess ascii_builtins 1000 true [1; 1] speakingState = speakingState.
Proof.
  assert (Hact : audioSources speakingState <> ∅).
  { intros Heq. apply (f_equal size) in Heq. vm_compute in Heq. discriminate. }
  split; [exact Hact|].
  exact (@echo_guard_skips_tick ascii_builtins 1000 true [1; 1] speakingState Hact).
Defined.

(** C2, as stated, fails: with a source playing, a full-scale buffer does
    not move the volume observable to the level of that buffer. *)
Lemma echo_guard_counterexample :
  let st := speakingState in
  let st' := @onaudioprocess ascii_builtins 1000 true [1; 1] st in
  currentSessionIdRef st = 1000%Z
  /\ audioSources st <> ∅
  /\ volumeLevel [1; 1] = 1
  /\ volume st' = 0
  /\ volume st' <> volumeLevel [1; 1].
Proof.
  cbv zeta.
  assert (Hlevel : volumeLevel [1; 1] = 1).
  { apply volumeLevel_full_scale; [discriminate|].
    repeat constructor; apply Rabs_R1. }
  assert (Hact : audioSources speakingState <> ∅).
  { intros Heq. apply (f_equal size) in Heq. vm_compute in Heq. discriminate. }
  assert (Hvol : volume (@onaudioprocess ascii_builtins 1000 true [1; 1] speakingState) = 0).
  { rewrite (@feedback_guard ascii_builtins _ _ _ _ Hact). reflexivity. }
  split; [reflexivity|]. split; [exact Hact|]. split; [exact Hlevel|].
  split; [exact Hvol|]. rewrite Hvol, Hlevel. lra.
Qed.

(** ** Stale callbacks *)

Section Staleness.
Context `{Builtins}.

(** The callbacks of the transport, the tick and the send reaction leave a
    state with another session id exactly as it is. *)
Lemma stale_onopen (sessionId : Z) (source processor : Handle) (st : State) :
  currentSessionIdRef st <> sessionId ->
  onopen sessionId source processor st = st.
Proof. intros Hne. unfold onopen. rewrite (stale_token _ _ Hne). reflexivity. Qed.

Lemma stale_onaudioprocess (sessionId : Z) (onLine : bool)
    (inputData : list R) (st : State) :
  currentSessionIdRef st <> sessionId ->
  onaudioprocess sessionId onLine inputData st = st.
Proof.
  intros Hne. unfold onaudioprocess. rewrite (stale_token _ _ Hne). reflexivity.
Qed.

Lemma stale_sendRealtimeInput (sessionId : Z) (frame : AudioFrame)
    (st : State) :
  currentSessionIdRef st <> sessionId ->
  sendRealtimeInput sessionId frame st = st.
Proof.
  intros Hne. unfold sendRealtimeInput. rewrite (stale_token _ _ Hne).
  reflexivity.
Qed.

Lemma stale_onmessage (sessionId now : Z) (currentTime : R)
    (message : LiveServerMessage) (st : State) :
  currentSessionIdRef st <> sessionId ->
  onmessage sessionId now currentTime message st = st.
Proof.
  intros Hne. unfold onmessage. rewrite (stale_token _ _ Hne). reflexivity.
Qed.

Lemma stale_onclose (sessionId : Z) (st : State) :
  currentSessionIdRef st <> sessionId -> onclose sessionId st = st.
Proof. intros Hne. unfold onclose. rewrite (stale_token _ _ Hne). reflexivity. Qed.

Lemma stale_onerror (sessionId : Z) (e : ErrorSignal) (st : State) :
  currentSessionIdRef st <> sessionId -> onerror sessionId e st = st.
Proof. intros Hne. unfold onerror. rewrite (stale_token _ _ Hne). reflexivity. Qed.

Lemma stale_connect_catch (sessionId : Z) (msg : string) (st : State) :
  currentSessionIdRef st <> sessionId -> connect_catch sessionId msg st = st.
Proof.
  intros Hne. unfold connect_catch. rewrite (stale_token _ _ Hne). reflexivity.
Qed.

Lemma stale_fire (sessionId : Z) (cb : Callback) (st : State) :
  currentSessionIdRef st <> sessionId ->
  observable (fire sessionId cb st) = observable st.
Proof.
  intros Hne. destruct cb; cbn [fire].
  - rewrite stale_onopen by exact Hne. reflexivity.
  - rewrite stale_onaudioprocess by exact Hne. reflexivity.
  - rewrite stale_sendRealtimeInput by exact Hne. reflexivity.
  - rewrite stale_onmessage by exact Hne. reflexivity.
  - rewrite stale_onclose by exact Hne. reflexivity.
  - rewrite stale_onerror by exact Hne. reflexivity.
  - unfold connect_gotUserMedia. rewrite (stale_token _ _ Hne). reflexivity.
  - unfold connect_gotSession. rewrite (stale_token _ _ Hne). reflexivity.
  - rewrite stale_connect_catch by exact Hne. reflexivity.
Qed.

Lemma run_snoc (st : State) (evs : list Event) (ev : Event) :
  run st (evs ++ [ev]) = step (run st evs) ev.
Proof. unfold run. rewrite fold_left_app. reflexivity. Qed.

(** C1. Take any state and any sequence of events from it (connect and
    disconnect calls among them). A callback that [connect] registered for
    [sessionId] (onopen, onmessage, onclose, onerror, the capture tick, its
    send reaction, and the resumptions of [connect] after device acquisition
    and after the session promise), fired when the current session id is no
    longer [sessionId], changes nothing observable: connection and speaking
    flags, volume, messages, error notice, active session, playback schedule
    and outbound traffic are as before. *)
Theorem stale_callback_is_noop (st0 : State) (evs : list Event)
    (sessionId : Z) (cb : Callback) :
  currentSessionIdRef (run st0 evs) <> sessionId ->
  observable (run st0 (evs ++ [Fire sessionId cb])) = observable (run st0 evs).
Proof.
  intros Hne. rewrite run_snoc. cbn [step]. apply stale_fire. exact Hne.
Qed.

(** C10. When [onopen] fires for the session id that is still current, the
    message list is empty afterwards, whatever it held. *)
Theorem onopen_resets_messages (sessionId : Z) (source processor : Handle)
    (st : State) :
  currentSessionIdRef st = sessionId ->
  messages (onopen sessionId source processor st) = [].
Proof.
  intros Htok. unfold onopen. rewrite Htok, Z.eqb_refl. cbn [negb].
  cbn. destruct (audioContextInput st); reflexivity.
Qed.

End Staleness.

Lemma stale_callback_is_noop_witness :
  let evs := openSession 1000 ++ [Disconnect false] in
  let cb := Received 1002 0 (audioChunk silentChunk) in
  currentSessionIdRef (@run ascii_builtins initialState evs) <> 1000%Z
  /\ observable (@run ascii_builtins initialState (evs ++ [Fire 1000%Z cb]))
     = observable (@run ascii_builtins initialState evs).
Proof.
  intros evs cb.
  assert (Hne : currentSessionIdRef (@run ascii_builtins initialState evs)
                <> 1000%Z).
  { change (currentSessionIdRef (@run ascii_builtins initialState evs))
      with 0%Z. discriminate. }
  split; [exact Hne|].
  exact (@stale_callback_is_noop ascii_builtins initialState evs 1000 cb Hne).
Defined.

Lemma onopen_resets_messages_witness :
  let st := @run ascii_builtins initialState
              (openSession 1000
                 ++ [Fire 1000%Z (Received 1001 0 (inputFragment "namo"));
                     Disconnect false; Connect false true 2000%Z;
                     AudioContexts 7%nat 8%nat;
                     Fire 2000%Z (GotUserMedia 9%nat);
                     Fire 2000%Z (GotSession 10%nat)]) in
  (currentSessionIdRef st = 2000%Z /\ length (messages st) = 1%nat)
  /\ messages (onopen 2000 11%nat 12%nat st) = [].
Proof.
  intros st.
  assert (Htok : currentSessionIdRef st = 2000%Z) by reflexivity.
  split; [split; [exact Htok|reflexivity]|].
  exact (onopen_resets_messages 2000 11%nat 12%nat st Htok).
Defined.

(** ** The error handler *)

Section ErrorHandler.
Context `{Builtins}.

Lemma isServiceUnavailable_table (lowerErr : string) :
  isServiceUnavailable lowerErr = existsb (includes lowerErr) busyPatterns.
Proof.
  unfold isServiceUnavailable, busyPatterns. cbn [existsb].
  rewrite orb_false_r. reflexivity.
Qed.

Lemma isSuppressed_table (lowerErr : string) :
  isSuppressed lowerErr = existsb (includes lowerErr) suppressedPatterns.
Proof.
  unfold isSuppressed, suppressedPatterns, claimedSuppressed. cbn [existsb].
  rewrite orb_false_r.
  rewrite (orb_comm (includes lowerErr "network error")).
  rewrite <- !orb_assoc. reflexivity.
Qed.

Lemma resetConnection_clears (st : State) :
  isConnected (resetConnection st) = false
  /\ isSpeaking (resetConnection st) = false
  /\ activeSessionRef (resetConnection st) = None
  /\ error (resetConnection st) = error st.
Proof. repeat split. Qed.

Lemma onerror_notice (sessionId : Z) (e : ErrorSignal) (st : State) :
  currentSessionIdRef st = sessionId ->
  let lowerErr := toLowerCase (errorText e) in
  onerror sessionId e st =
    resetConnection
      (set_error (noticeOf (classify suppressedPatterns lowerErr) (error st)) st).
Proof.
  intros Htok lowerErr. unfold onerror, classify.
  rewrite Htok, Z.eqb_refl. cbn [negb].
  fold lowerErr.
  rewrite isServiceUnavailable_table, isSuppressed_table.
  destruct (existsb (includes lowerErr) busyPatterns); [reflexivity|].
  destruct (existsb (includes lowerErr) suppressedPatterns); [|reflexivity].
  cbn [noticeOf]. destruct st; reflexivity.
Qed.

(** C8, as the code has it. An error signal under the current session id
    is classified on the lower-cased text extracted from it: Busy when it
    contains "service is currently unavailable" or "503" (the retryable
    notice is set); otherwise TransientSuppressed when it contains
    "network error", "networkerror", "closed", "aborted", "entity was not
    found", "connection failed" or "undefined" (the error observable is
    left as it is); otherwise Fatal (the generic failure notice is set).
    In all three classes the connected and speaking observables are
    cleared and the active session handle is dropped. *)
Theorem onerror_classification (sessionId : Z) (e : ErrorSignal)
    (st : State) :
  currentSessionIdRef st = sessionId ->
  error (onerror sessionId e st) =
    noticeOf (classify suppressedPatterns (toLowerCase (errorText e)))
      (error st)
  /\ isConnected (onerror sessionId e st) = false
  /\ isSpeaking (onerror sessionId e st) = false
  /\ activeSessionRef (onerror sessionId e st) = None.
Proof.
  intros Htok. rewrite (onerror_notice _ _ _ Htok). repeat split.
Qed.

End ErrorHandler.

(** The three classifications the specification quotes. *)
Example classify_quoted :
  classify suppressedPatterns
    (ascii_toLowerCase "Service is currently unavailable, try later") = Busy
  /\ classify suppressedPatterns (ascii_toLowerCase "entity was not found")
     = TransientSuppressed
  /\ classify suppressedPatterns (ascii_toLowerCase "totally unknown blob")
     = Fatal.
Proof. repeat split. Qed.

Lemma onerror_classification_witness :
  let st := @run ascii_builtins initialState (openSession 1000) in
  currentSessionIdRef st = 1000%Z
  /\ error (@onerror ascii_builtins 1000 fetchFailure st) = None
  /\ isConnected (@onerror ascii_builtins 1000 fetchFailure st) = false
  /\ isSpeaking (@onerror ascii_builtins 1000 fetchFailure st) = false
  /\ activeSessionRef (@onerror ascii_builtins 1000 fetchFailure st) = None.
Proof.
  intros st.
  assert (Htok : currentSessionIdRef st = 1000%Z) by reflexivity.
  split; [exact Htok|].
  exact (@onerror_classification ascii_builtins 1000 fetchFailure st Htok).
Defined.

(** C8, as stated, fails: a text with "networkerror" matches none of the
    patterns the claim lists for Busy or TransientSuppressed, so the claim
    makes it Fatal with the generic notice; the handler sets no notice. *)
Lemma onerror_counterexample :
  let st := @run ascii_builtins initialState (openSession 1000) in
  let lowerErr := ascii_toLowerCase (errorText fetchFailure) in
  currentSessionIdRef st = 1000%Z
  /\ classify claimedSuppressed lowerErr = Fatal
  /\ error (@onerror ascii_builtins 1000 fetchFailure st) = None
  /\ error (@onerror ascii_builtins 1000 fetchFailure st)
     <> noticeOf (classify claimedSuppressed lowerErr) (error st).
Proof.
  cbv zeta. split; [reflexivity|]. split; [reflexivity|].
  split; [reflexivity|]. discriminate.
Qed.

(** ** The transcript aggregator *)

Section TranscriptAggregator.
Context `{Builtins}.

Lemma updateMessageState_appends (now : Z) (r : Role) (txt : string)
    (complete : bool) (prev : list Message) :
  trailingPending r prev = false ->
  truthy (trim txt) = true ->
  updateMessageState now r txt complete prev =
    prev ++ [mkMessage (pretty now) r txt complete].
Proof.
  unfold trailingPending, updateMessageState. intros Hlast Htxt.
  destruct (last prev) as [lastMsg|]; rewrite ?Hlast, Htxt; reflexivity.
Qed.

Lemma updateMessageState_extends (now : Z) (r : Role) (txt : string)
    (complete : bool) (prev : list Message) (i old : string) :
  updateMessageState now r txt complete (prev ++ [mkMessage i r old false]) =
    prev ++ [mkMessage i r txt complete].
Proof.
  unfold updateMessageState. rewrite last_snoc. cbn [role isComplete id negb].
  rewrite bool_decide_eq_true_2 by reflexivity. cbn [andb].
  rewrite removelast_last. reflexivity.
Qed.

(** What [onmessage] does with a message that carries one fragment of the
    model's transcript and nothing else. *)
Lemma received_outputFragment (sessionId now : Z) (currentTime : R)
    (s : string) (st : State) :
  currentSessionIdRef st = sessionId ->
  onmessage sessionId now currentTime (outputFragment s) st =
    set_messages
      (updateMessageState now model (currentOutputTrans st +:+ s) false
         (messages st))
      (set_currentOutputTrans (currentOutputTrans st +:+ s) st).
Proof.
  intros Htok. unfold onmessage. rewrite Htok, Z.eqb_refl. reflexivity.
Qed.

(** What [onmessage] does on turn-complete when only the model's
    accumulator holds text. *)
Lemma received_turnComplete_model (sessionId now : Z) (currentTime : R)
    (st : State) :
  currentSessionIdRef st = sessionId ->
  currentInputTrans st = "" ->
  truthy (currentOutputTrans st) = true ->
  onmessage sessionId now currentTime turnCompleteSignal st =
    set_currentOutputTrans ""
      (set_messages
         (updateMessageState now model (currentOutputTrans st) true
            (messages st)) st).
Proof.
  intros Htok Hin Hout. unfold onmessage. rewrite Htok, Z.eqb_refl.
  cbn [negb]. unfold handleTranscription. cbn.
  rewrite Hin. cbn. rewrite Hout. reflexivity.
Qed.

(** C3, as the code has it. From a state with empty accumulators and no
    open model message at the end of the list, the fragments "na", "namo",
    "namo buddhaya" of the model followed by turn-complete add exactly one
    entry: it is created by the first fragment, rewritten in place by the
    next two, and closed by turn-complete with the fragments concatenated
    in arrival order as its text. *)
Theorem model_fragments_concatenate (sessionId n1 n2 n3 n4 : Z)
    (t1 t2 t3 t4 : R) (st : State) :
  currentSessionIdRef st = sessionId ->
  currentInputTrans st = "" ->
  currentOutputTrans st = "" ->
  trailingPending model (messages st) = false ->
  truthy (trim "na") = true ->
  let f1 := Fire sessionId (Received n1 t1 (outputFragment "na")) in
  let f2 := Fire sessionId (Received n2 t2 (outputFragment "namo")) in
  let f3 := Fire sessionId (Received n3 t3 (outputFragment "namo buddhaya")) in
  let f4 := Fire sessionId (Received n4 t4 turnCompleteSignal) in
  let entry txt complete := mkMessage (pretty n1) model txt complete in
  messages (run st [f1]) = messages st ++ [entry "na" false]
  /\ messages (run st [f1; f2]) = messages st ++ [entry "nanamo" false]
  /\ messages (run st [f1; f2; f3]) =
       messages st ++ [entry "nanamonamo buddhaya" false]
  /\ messages (run st [f1; f2; f3; f4]) =
       messages st ++ [entry "nanamonamo buddhaya" true].
Proof.
  intros Htok Hin Hout Hlast Htrim. cbv zeta.
  unfold run. cbn [fold_left step fire].
  rewrite (received_outputFragment _ n1 _ _ st Htok).
  rewrite Hout. cbn [String.append].
  rewrite (updateMessageState_appends _ _ _ _ _ Hlast Htrim).
  set (st1 := set_messages _ _).
  assert (Htok1 : currentSessionIdRef st1 = sessionId) by exact Htok.
  rewrite (received_outputFragment _ n2 _ _ st1 Htok1).
  cbn [st1 currentOutputTrans messages set_messages set_currentOutputTrans
       String.append].
  rewrite updateMessageState_extends.
  set (st2 := set_messages _ _).
  assert (Htok2 : currentSessionIdRef st2 = sessionId) by exact Htok.
  rewrite (received_outputFragment _ n3 _ _ st2 Htok2).
  cbn [st2 currentOutputTrans messages set_messages set_currentOutputTrans
       String.append].
  rewrite updateMessageState_extends.
  set (st3 := set_messages _ _).
  assert (Htok3 : currentSessionIdRef st3 = sessionId) by exact Htok.
  assert (Hin3 : currentInputTrans st3 = "") by exact Hin.
  rewrite (received_turnComplete_model _ n4 _ st3 Htok3 Hin3) by reflexivity.
  cbn [st3 currentOutputTrans messages set_messages set_currentOutputTrans].
  rewrite updateMessageState_extends.
  repeat split.
Qed.

(** What the stop command does when the user's accumulator comes to hold
    it: every active source is stopped and removed and the speaking flag is
    cleared, within the handling of that fragment. *)
Lemma stop_command_stops_sources (now : Z) (s : string) (st : State) :
  stopCommand (toLowerCase (js_concat (currentInputTrans st) (Some s))) = true ->
  audioSources (handleTranscription now (inputFragment s) st) = ∅
  /\ stopped (handleTranscription now (inputFragment s) st)
     = stopped st ∪ audioSources st
  /\ isSpeaking (handleTranscription now (inputFragment s) st) = false.
Proof.
  intros Hstop. unfold handleTranscription. cbn.
  rewrite Hstop. repeat split.
Qed.

(** A fragment of the user's transcript never moves the scheduler cursor
    or the model's accumulator, stop command or not. *)
Lemma inputFragment_keeps_cursor (now : Z) (s : string) (st : State) :
  nextStartTime (handleTranscription now (inputFragment s) st)
    = nextStartTime st
  /\ currentOutputTrans (handleTranscription now (inputFragment s) st)
    = currentOutputTrans st.
Proof.
  unfold handleTranscription. cbn.
  destruct (stopCommand _); split; reflexivity.
Qed.

End TranscriptAggregator.

Lemma model_fragments_concatenate_witness :
  let st := @run ascii_builtins initialState (openSession 1000) in
  let f1 := Fire 1000%Z (Received 1001 0 (outputFragment "na")) in
  let f2 := Fire 1000%Z (Received 1002 0 (outputFragment "namo")) in
  let f3 := Fire 1000%Z (Received 1003 0 (outputFragment "namo buddhaya")) in
  let f4 := Fire 1000%Z (Received 1004 0 turnCompleteSignal) in
  (currentSessionIdRef st = 1000%Z /\ currentInputTrans st = ""
   /\ currentOutputTrans st = "" /\ trailingPending model (messages st) = false
   /\ truthy (ascii_trim "na") = true)
  /\ messages (@run ascii_builtins st [f1; f2; f3; f4]) =
       [mkMessage "1001" model "nanamonamo buddhaya" true].
Proof.
  intros st f1 f2 f3 f4.
  split; [repeat split|].
  exact (proj2 (proj2 (proj2
    (@model_fragments_concatenate ascii_builtins 1000 1001 1002 1003 1004
       0 0 0 0 st eq_refl eq_refl eq_refl eq_refl eq_refl)))).
Defined.

(** C3, as stated, fails: after the three fragments and turn-complete the
    list holds one closed model message, and its text is not
    "namo buddhaya" but the three fragments one after the other. *)
Lemma model_fragments_counterexample :
  let st := @run ascii_builtins initialState (openSession 1000 ++ modelTurn) in
  messages st = [mkMessage "1001" model "nanamonamo buddhaya" true]
  /\ ~ (exists m, m ∈ messages st /\ text m = "namo buddhaya").
Proof.
  cbv zeta.
  assert (Hmsgs : messages (@run ascii_builtins initialState
                              (openSession 1000 ++ modelTurn))
                  = [mkMessage "1001" model "nanamonamo buddhaya" true])
    by (vm_compute; reflexivity).
  split; [exact Hmsgs|].
  intros [m [Hin Htxt]]. rewrite Hmsgs in Hin.
  apply list_elem_of_singleton in Hin. subst m. discriminate Htxt.
Qed.

(** C7 fails on the code. Once a fragment of the other role has been
    appended, the open message of a role is no longer the last entry, and
    the next fragment or the turn-complete of that role appends a new entry
    and leaves the old one open: two open user messages after user, model,
    user; after an ordinary turn (user, model, turn-complete) both first
    entries stay open behind their closed copies, and the next user fragment
    opens a second one. *)
Theorem interleaved_fragments_leave_two_pending :
  let st1 := @run ascii_builtins initialState (openSession 1000 ++ interleavedTurn) in
  let st2 := @run ascii_builtins initialState (openSession 1000 ++ ordinaryTurn) in
  let st3 := @step ascii_builtins st2
               (Fire 1000%Z (Received 1004 0 (inputFragment "a"))) in
  pending user (messages st1) =
    [mkMessage "1001" user "hi" false; mkMessage "1003" user "hi there" false]
  /\ messages st2 =
       [mkMessage "1001" user "hi" false; mkMessage "1002" model "yo" false;
        mkMessage "1003" user "hi" true; mkMessage "1003" model "yo" true]
  /\ pending user (messages st3) =
       [mkMessage "1001" user "hi" false; mkMessage "1004" user "a" false].
Proof. repeat split. Qed.

(** C4 fails on the code. The stop command found in the user's transcript
    stops and removes the active source and clears the speaking flag, but
    the scheduler cursor keeps its value and the model's accumulator its
    text; the branch of [onmessage] for the server's interruption resets
    both. *)
Theorem stop_command_keeps_cursor :
  let st := @run ascii_builtins initialState
              (openSession 1000 ++ modelSpeaking) in
  let st' := @step ascii_builtins st
               (Fire 1000%Z (Received 1003 0 (inputFragment "titthatu"))) in
  (audioSources st = {[ 0%nat ]} /\ currentOutputTrans st = "sadhu")
  /\ stopCommand (ascii_toLowerCase (currentInputTrans st')) = true
  /\ audioSources st' = ∅
  /\ stopped st' = {[ 0%nat ]}
  /\ isSpeaking st' = false
  /\ nextStartTime st' = nextStartTime st
  /\ 0 < nextStartTime st'
  /\ currentOutputTrans st' = "sadhu"
  /\ nextStartTime (interrupt st) = 0
  /\ currentOutputTrans (interrupt st) = "".
Proof.
  cbv zeta.
  split; [split; vm_compute; reflexivity|].
  do 4 (split; [vm_compute; reflexivity|]).
  split; [vm_compute; reflexivity|].
  split; [|split; [|split]; reflexivity].
  match goal with
  | |- 0 < ?x =>
      change x with (Rmax 0 0 + INR 2 / SAMPLE_RATE_OUTPUT)
  end.
  unfold SAMPLE_RATE_OUTPUT. rewrite Rmax_left by lra. cbn [INR]. lra.
Qed.

(** ** The playback scheduler *)

(** Case analysis on whatever a handler branches on. *)
Ltac branches :=
  repeat match goal with
         | |- context [match ?x with _ => _ end] => destruct x; cbv beta iota
         end.

Section PlaybackScheduler.
Context `{Builtins}.

Lemma decoded_duration_pos (bytes : string) (buf : AudioBuffer) :
  decodeAudioData bytes SAMPLE_RATE_OUTPUT = Some buf -> 0 < duration buf.
Proof.
  unfold decodeAudioData.
  destruct (int16_of_bytes bytes) as [[|v l]|]; intros Hdec;
    [discriminate| |discriminate].
  injection Hdec as <-. unfold duration, SAMPLE_RATE_OUTPUT.
  cbn [channelData sampleRate List.map length].
  pose proof (pos_INR (length (List.map (fun v => IZR v / 32768) l))) as Hlen.
  rewrite S_INR. apply Rdiv_lt_0_compat; lra.
Qed.

Lemma begin_decoded (base64Data : string) (st st1 : State)
    (buf : AudioBuffer) :
  playAudioChunk_begin base64Data st = (st1, Some buf) ->
  0 < duration buf /\ nextStartTime st1 = nextStartTime st.
Proof.
  unfold playAudioChunk_begin.
  destruct (base64ToUint8Array base64Data) as [bytes|]; [|discriminate].
  intros Heq. injection Heq as <- Hdec.
  split; [exact (decoded_duration_pos _ _ Hdec)|reflexivity].
Qed.

Lemma begin_cursor (base64Data : string) (st : State) :
  nextStartTime (fst (playAudioChunk_begin base64Data st)) = nextStartTime st.
Proof.
  unfold playAudioChunk_begin.
  destruct (base64ToUint8Array base64Data); reflexivity.
Qed.

Lemma resume_cursor (buf : AudioBuffer) (currentTime : R) (st : State) :
  nextStartTime (playAudioChunk_resume buf currentTime st) =
    Rmax currentTime (nextStartTime st) + duration buf.
Proof. reflexivity. Qed.

Lemma resume_raises (buf : AudioBuffer) (currentTime : R) (st : State) :
  0 <= duration buf ->
  nextStartTime st <= nextStartTime (playAudioChunk_resume buf currentTime st).
Proof.
  intros Hdur. rewrite resume_cursor.
  pose proof (Rmax_r currentTime (nextStartTime st)). lra.
Qed.

Lemma handleTranscription_cursor (now : Z) (message : LiveServerMessage)
    (st : State) :
  nextStartTime (handleTranscription now message st) = nextStartTime st.
Proof. unfold handleTranscription. branches; reflexivity. Qed.

Lemma cleanup_cursor (st : State) :
  nextStartTime (cleanupAudioAndSession st) = nextStartTime st.
Proof. unfold cleanupAudioAndSession. branches; reflexivity. Qed.

(** A message without the interruption flag never lowers the cursor. *)
Lemma onmessage_cursor (sessionId now : Z) (currentTime : R)
    (message : LiveServerMessage) (st : State) :
  from_option interrupted false (serverContent message) = false ->
  nextStartTime st <=
    nextStartTime (onmessage sessionId now currentTime message st).
Proof.
  intros Hint. unfold onmessage.
  destruct (negb _); [lra|]. rewrite Hint.
  pose proof (handleTranscription_cursor now message st) as Hh.
  set (st1 := handleTranscription now message st) in *.
  destruct (serverContent message ≫= audio) as [base64Data|];
    [|cbn; lra].
  destruct (audioContextOutput st1); [|cbn; lra].
  destruct (truthy base64Data); [|cbn; lra].
  destruct (playAudioChunk_begin base64Data st1) as [st2 [buf|]] eqn:Hbegin.
  - destruct (begin_decoded _ _ _ _ Hbegin) as [Hdur Hcur].
    pose proof (resume_raises buf currentTime st2 (Rlt_le _ _ Hdur)). lra.
  - pose proof (begin_cursor base64Data st1) as Hcur.
    rewrite Hbegin in Hcur. cbn in Hcur. lra.
Qed.

Lemma connect_cursor (busy onLine : bool) (now : Z) (st : State) :
  nextStartTime (connect busy onLine now st) = nextStartTime st.
Proof.
  unfold connect. destruct busy; [reflexivity|].
  destruct onLine; cbn [negb]; [|reflexivity].
  rewrite (cleanup_cursor _). reflexivity.
Qed.

Lemma reset_observables_cursor (st : State) :
  nextStartTime
    (set_isBusy false
       (set_volume 0 (set_isSpeaking false (set_isConnected false st))))
    = nextStartTime st.
Proof. reflexivity. Qed.

Lemma disconnect_cursor (busy : bool) (st : State) :
  nextStartTime (disconnect busy st) = nextStartTime st.
Proof.
  unfold disconnect. destruct busy; [reflexivity|]. cbv beta iota zeta.
  rewrite reset_observables_cursor, (cleanup_cursor _). reflexivity.
Qed.

Lemma onaudioprocess_cursor (sessionId : Z) (onLine : bool)
    (inputData : list R) (st : State) :
  nextStartTime (onaudioprocess sessionId onLine inputData st)
    = nextStartTime st.
Proof. unfold onaudioprocess. branches; reflexivity. Qed.

Lemma sendRealtimeInput_cursor (sessionId : Z) (frame : AudioFrame)
    (st : State) :
  nextStartTime (sendRealtimeInput sessionId frame st) = nextStartTime st.
Proof. unfold sendRealtimeInput. branches; reflexivity. Qed.

Lemma onerror_cursor (sessionId : Z) (e : ErrorSignal) (st : State) :
  nextStartTime (onerror sessionId e st) = nextStartTime st.
Proof. unfold onerror. branches; reflexivity. Qed.

Lemma connect_catch_cursor (sessionId : Z) (msg : string) (st : State) :
  nextStartTime (connect_catch sessionId msg st) = nextStartTime st.
Proof. unfold connect_catch. branches; reflexivity. Qed.

Lemma onended_cursor (source : SourceId) (st : State) :
  nextStartTime (onended source st) = nextStartTime st.
Proof. unfold onended. branches; reflexivity. Qed.

(** Whatever happens, the cursor does not go down, unless what happens is
    a message with the interruption flag under the current session id. *)
Lemma step_cursor (st : State) (ev : Event) :
  nextStartTime st <= nextStartTime (step st ev)
  \/ exists now currentTime message,
       ev = Fire (currentSessionIdRef st) (Received now currentTime message)
       /\ from_option interrupted false (serverContent message) = true.
Proof.
  destruct ev as [busy onLine now|input output|busy|sessionId cb| |source|];
    cbn [step].
  - left. rewrite connect_cursor. lra.
  - left. apply Rle_refl.
  - left. rewrite disconnect_cursor. lra.
  - destruct cb as [source processor|onLine inputData|frame
                    |now currentTime message| |e|stream|session|msg];
      cbn [fire].
    + left. unfold onopen. branches; apply Rle_refl.
    + left. rewrite onaudioprocess_cursor. lra.
    + left. rewrite sendRealtimeInput_cursor. lra.
    + destruct (from_option interrupted false (serverContent message))
        eqn:Hint.
      * destruct (Z.eq_dec (currentSessionIdRef st) sessionId) as [<-|Hne].
        -- right. exists now, currentTime, message.
           split; [reflexivity|exact Hint].
        -- left. rewrite stale_onmessage by exact Hne. lra.
      * left. apply onmessage_cursor. exact Hint.
    + left. unfold onclose. branches; apply Rle_refl.
    + left. rewrite onerror_cursor. lra.
    + left. unfold connect_gotUserMedia. branches; apply Rle_refl.
    + left. unfold connect_gotSession. branches; apply Rle_refl.
    + left. rewrite connect_catch_cursor. lra.
  - left. destruct (pendingSends st) as [|[sessionId frame] rest];
      [lra|]. rewrite sendRealtimeInput_cursor. apply Rle_refl.
  - left. rewrite onended_cursor. lra.
  - left. unfold speakingTimeout. branches; apply Rle_refl.
Qed.

(** C6. Enqueueing a decoded chunk sets the cursor to
    [max(currentTime, cursor) + duration], with a duration that is not
    negative, so the cursor does not go down; the interruption branch
    sets it to exactly zero; and an event after which the cursor is lower
    than before is a message with the interruption flag, received under
    the current session id. *)
Theorem scheduler_cursor_monotone (base64Data : string) (st0 st1 : State)
    (buf : AudioBuffer) (currentTime : R) (st : State) (ev : Event) :
  playAudioChunk_begin base64Data st0 = (st1, Some buf) ->
  0 <= duration buf
  /\ nextStartTime (playAudioChunk_resume buf currentTime st) =
       Rmax currentTime (nextStartTime st) + duration buf
  /\ nextStartTime st <= nextStartTime (playAudioChunk_resume buf currentTime st)
  /\ nextStartTime (interrupt st) = 0
  /\ (nextStartTime (step st ev) < nextStartTime st ->
      exists now currentTime' message,
        ev = Fire (currentSessionIdRef st) (Received now currentTime' message)
        /\ from_option interrupted false (serverContent message) = true).
Proof.
  intros Hbegin. destruct (begin_decoded _ _ _ _ Hbegin) as [Hdur _].
  split; [lra|]. split; [apply resume_cursor|].
  split; [apply resume_raises; lra|]. split; [reflexivity|].
  intros Hlower. destruct (step_cursor st ev) as [Hle|Hint]; [lra|exact Hint].
Qed.

End PlaybackScheduler.

Lemma scheduler_cursor_monotone_witness :
  let st0 := @run ascii_builtins initialState (openSession 1000) in
  let buf := mkAudioBuffer [IZR 0 / 32768; IZR 0 / 32768] SAMPLE_RATE_OUTPUT in
  @playAudioChunk_begin ascii_builtins silentChunk st0
    = (set_isSpeaking true st0, Some buf)
  /\ nextStartTime speakingState <=
       nextStartTime (playAudioChunk_resume buf 0 speakingState).
Proof.
  intros st0 buf.
  assert (Hbegin : @playAudioChunk_begin ascii_builtins silentChunk st0
                   = (set_isSpeaking true st0, Some buf))
    by (vm_compute; reflexivity).
  split; [exact Hbegin|].
  exact (proj1 (proj2 (proj2
    (@scheduler_cursor_monotone ascii_builtins silentChunk st0
       (set_isSpeaking true st0) buf 0 speakingState TimerFired Hbegin)))).
Defined.

(** ** The session identity guard *)

Section SessionIdentity.
Context `{Builtins}.

Lemma cleanup_token (st : State) :
  currentSessionIdRef (cleanupAudioAndSession st) = currentSessionIdRef st.
Proof. unfold cleanupAudioAndSession. branches; reflexivity. Qed.

(** A [connect] call that gets past its two guards leaves the clock
    reading as the current session id. *)
Lemma connect_mints (now : Z) (st : State) :
  currentSessionIdRef (connect false true now st) = now.
Proof.
  unfold connect. cbv beta iota zeta. cbn [negb].
  rewrite (cleanup_token _). reflexivity.
Qed.

Lemma reset_observables_token (st : State) :
  currentSessionIdRef
    (set_isBusy false
       (set_volume 0 (set_isSpeaking false (set_isConnected false st))))
    = currentSessionIdRef st.
Proof. reflexivity. Qed.

(** A [disconnect] call that gets past the busy guard leaves 0. *)
Lemma disconnect_invalidates (st : State) :
  currentSessionIdRef (disconnect false st) = 0%Z.
Proof.
  unfold disconnect. cbv beta iota zeta.
  rewrite reset_observables_token, (cleanup_token _). reflexivity.
Qed.

Lemma mintedTokens_readings (st : State) (evs : list Event) :
  mintedTokens st evs = mintReadings evs.
Proof.
  revert st; induction evs as [|ev evs IH]; intros st; [reflexivity|].
  destruct ev as [busy onLine now|input output|busy|sessionId cb| |source|];
    cbn [mintedTokens mintReadings]; try apply IH.
  destruct busy, onLine; try apply IH.
  cbn [step]. rewrite connect_mints, IH. reflexivity.
Qed.

(** C5, as the code has it. Every mint makes the clock reading of its
    [connect] call the current session id; so along a run whose readings at
    the mints are positive and strictly increasing, each minted id is
    strictly greater than all ids minted before it. A disconnect leaves 0
    as the current id, which is strictly below every minted id. *)
Theorem session_ids_follow_clock (st : State) (evs : list Event) :
  StronglySorted Z.lt (mintReadings evs) ->
  Forall (fun now => (0 < now)%Z) (mintReadings evs) ->
  mintedTokens st evs = mintReadings evs
  /\ StronglySorted Z.lt (mintedTokens st evs)
  /\ Forall (fun token =>
               (currentSessionIdRef (disconnect false (run st evs)) < token)%Z)
       (mintedTokens st evs).
Proof.
  intros Hsorted Hpos. rewrite mintedTokens_readings.
  split; [reflexivity|]. split; [exact Hsorted|].
  rewrite disconnect_invalidates. exact Hpos.
Qed.

End SessionIdentity.

Lemma session_ids_follow_clock_witness :
  let evs := openSession 1000 ++ [Disconnect false] ++ openSession 2000 in
  (StronglySorted Z.lt (mintReadings evs)
   /\ Forall (fun now => (0 < now)%Z) (mintReadings evs))
  /\ @mintedTokens ascii_builtins initialState evs = [1000; 2000]%Z.
Proof.
  intros evs.
  assert (Hsorted : StronglySorted Z.lt (mintReadings evs)).
  { repeat constructor. }
  assert (Hpos : Forall (fun now => (0 < now)%Z) (mintReadings evs)).
  { repeat constructor. }
  split; [split; assumption|].
  exact (proj1 (@session_ids_follow_clock ascii_builtins initialState evs
                  Hsorted Hpos)).
Defined.

(** C5, as stated, fails: after a session minted at clock reading 1000, a
    disconnect makes 0 the current id, which is not greater than the id
    minted before. *)
Lemma session_id_counterexample :
  let st := @run ascii_builtins initialState (openSession 1000) in
  let st' := @step ascii_builtins st (Disconnect (isBusy st)) in
  @mintedTokens ascii_builtins initialState (openSession 1000) = [1000%Z]
  /\ currentSessionIdRef st = 1000%Z
  /\ currentSessionIdRef st' = 0%Z
  /\ ~ Forall (fun token => (token < currentSessionIdRef st')%Z)
         (@mintedTokens ascii_builtins initialState (openSession 1000)).
Proof.
  cbv zeta.
  split; [vm_compute; reflexivity|]. split; [vm_compute; reflexivity|].
  split; [vm_compute; reflexivity|].
  intros Hall.
  assert (Hlt : (1000 < 0)%Z).
  { vm_compute in Hall. inversion Hall as [|? ? Hhead _]. exact Hhead. }
  discriminate Hlt.
Qed.

(** * Further properties *)

(** ** PCM conversions *)

Section PCM.

Lemma Z_of_byte_of_Z (z : Z) : Z_of_byte (byte_of_Z z) = (z mod 256)%Z.
Proof.
  unfold Z_of_byte, byte_of_Z.
  pose proof (Z.mod_pos_bound z 256 ltac:(lia)) as Hb.
  rewrite N_ascii_embedding by lia. lia.
Qed.

Lemma Z_of_byte_range (c : ascii) : (0 <= Z_of_byte c < 256)%Z.
Proof.
  unfold Z_of_byte. pose proof (N_ascii_bounded c). lia.
Qed.

Lemma int16_of_pair_range (lo hi : ascii) :
  (-32768 <= int16_of_pair lo hi < 32768)%Z.
Proof.
  unfold int16_of_pair. pose proof (Z_of_byte_range lo).
  pose proof (Z_of_byte_range hi).
  destruct (Z.ltb_spec (Z_of_byte lo + 256 * Z_of_byte hi) 32768); lia.
Qed.

Lemma int16_pair_roundtrip (v : Z) :
  (-32768 <= v < 32768)%Z ->
  int16_of_pair (byte_of_Z v) (byte_of_Z (v / 256)) = v.
Proof.
  intros Hv. unfold int16_of_pair. rewrite !Z_of_byte_of_Z.
  assert (Hu : (v mod 256 + 256 * ((v / 256) mod 256) = v mod 65536)%Z).
  { rewrite (Z.mod_eq v 256), (Z.mod_eq (v / 256) 256), (Z.mod_eq v 65536) by lia.
    rewrite Z.div_div by lia. change (256 * 256)%Z with 65536%Z. lia. }
  rewrite Hu.
  destruct (Z.ltb_spec (v mod 65536) 32768) as [Hlt|Hge].
  - destruct (Z_lt_le_dec v 0) as [Hneg|Hpos].
    + assert (v mod 65536 = v + 65536)%Z.
      { symmetry. apply (Z.mod_unique v 65536 (-1)); lia. }
      lia.
    + apply Z.mod_small. lia.
  - destruct (Z_lt_le_dec v 0) as [Hneg|Hpos].
    + assert (v mod 65536 = v + 65536)%Z.
      { symmetry. apply (Z.mod_unique v 65536 (-1)); lia. }
      lia.
    + rewrite Z.mod_small in Hge by lia. lia.
Qed.

Lemma int16_of_bytes_pair (lo hi : ascii) (rest : string) :
  int16_of_bytes (String lo (String hi rest)) =
    option_map (cons (int16_of_pair lo hi)) (int16_of_bytes rest).
Proof. reflexivity. Qed.

Lemma int16_buffer_cons (v : Z) (l : list Z) :
  int16_buffer (v :: l) =
    String (byte_of_Z v) (String (byte_of_Z (v / 256)) (int16_buffer l)).
Proof. reflexivity. Qed.

(** What the capture tick lays out as bytes, the decoder reads back as the
    same 16-bit values. *)
Lemma int16_buffer_roundtrip (l : list Z) :
  Forall (fun v => (-32768 <= v < 32768)%Z) l ->
  int16_of_bytes (int16_buffer l) = Some l.
Proof.
  induction 1 as [|v l Hv _ IH]; [reflexivity|].
  rewrite int16_buffer_cons, int16_of_bytes_pair, IH.
  rewrite int16_pair_roundtrip by exact Hv. reflexivity.
Qed.

End PCM.

Section Decoder.

Lemma string_pair_ind (P : string -> Prop) :
  P EmptyString ->
  (forall c, P (String c EmptyString)) ->
  (forall lo hi rest, P rest -> P (String lo (String hi rest))) ->
  forall s, P s.
Proof.
  intros Hempty Hone Hpair s.
  enough (Hboth : P s /\ forall c, P (String c s)) by exact (proj1 Hboth).
  induction s as [|c s [IHs IHc]].
  - split; [exact Hempty|exact Hone].
  - split; [apply IHc|]. intros c'. apply Hpair. exact IHs.
Qed.

Lemma int16_of_bytes_spec (s : string) :
  match int16_of_bytes s with
  | Some l =>
      String.length s = (2 * length l)%nat
      /\ Forall (fun v => (-32768 <= v < 32768)%Z) l
  | None => Nat.Odd (String.length s)
  end.
Proof.
  induction s as [|c|lo hi rest IH] using string_pair_ind.
  - split; [reflexivity|constructor].
  - exists 0%nat. reflexivity.
  - rewrite int16_of_bytes_pair.
    destruct (int16_of_bytes rest) as [l|]; cbn [option_map].
    + destruct IH as [Hlen Hall]. split.
      * cbn [String.length length]. lia.
      * constructor; [apply int16_of_pair_range|exact Hall].
    + destruct IH as [k Hk]. exists (S k). cbn [String.length]. lia.
Qed.

Lemma sample_of_int16_range (v : Z) :
  (-32768 <= v < 32768)%Z -> -1 <= IZR v / 32768 < 1.
Proof.
  intros [Hlo Hhi]. apply IZR_le in Hlo. apply IZR_lt in Hhi.
  split.
  - apply Rmult_le_reg_r with 32768; [lra|]. unfold Rdiv.
    rewrite Rmult_assoc, Rinv_l by lra. lra.
  - apply Rmult_lt_reg_r with 32768; [lra|]. unfold Rdiv.
    rewrite Rmult_assoc, Rinv_l by lra. lra.
Qed.

(** X1. [decodeAudioData] on every input. It yields a buffer exactly for a non-
    empty byte string of even length: one frame per two bytes, at the rate asked
    for, every sample in [-1, 1). On an empty or odd-length input the promise is
    rejected. *)
Theorem decodeAudioData_spec (bytes : string) (rate : R) :
  match decodeAudioData bytes rate with
  | Some buf =>
      String.length bytes = (2 * length (channelData buf))%nat
      /\ channelData buf <> []
      /\ sampleRate buf = rate
      /\ Forall (fun x => -1 <= x < 1) (channelData buf)
  | None => bytes = EmptyString \/ Nat.Odd (String.length bytes)
  end.
Proof.
  unfold decodeAudioData. pose proof (int16_of_bytes_spec bytes) as Hspec.
  destruct (int16_of_bytes bytes) as [[|v l]|].
  - left. destruct Hspec as [Hlen _]. destruct bytes; [reflexivity|discriminate].
  - destruct Hspec as [Hlen Hall]. cbn [channelData sampleRate].
    split; [rewrite List.length_map; exact Hlen|].
    split; [discriminate|]. split; [reflexivity|].
    apply Forall_map. eapply Forall_impl; [exact Hall|].
    intros x Hx. apply sample_of_int16_range. exact Hx.
  - right. exact Hspec.
Qed.

End Decoder.

Section Quantizer.

Lemma truncR_nonneg (x : R) :
  0 <= x -> IZR (truncR x) <= x < IZR (truncR x) + 1.
Proof.
  intros Hx. unfold truncR. destruct (Rle_dec 0 x) as [_|Hn]; [|contradiction].
  destruct (base_Int_part x) as [Hlo Hhi]. lra.
Qed.

Lemma truncR_neg (x : R) :
  x < 0 -> IZR (truncR x) - 1 < x <= IZR (truncR x).
Proof.
  intros Hx. unfold truncR. destruct (Rle_dec 0 x) as [Hp|_]; [lra|].
  destruct (base_Int_part (- x)) as [Hlo Hhi]. rewrite opp_IZR. lra.
Qed.

(** Truncation is toward zero and misses its argument by less than one. *)
Lemma truncR_error (x : R) : Rabs (IZR (truncR x) - x) < 1.
Proof.
  destruct (Rle_lt_dec 0 x) as [Hx|Hx].
  - pose proof (truncR_nonneg x Hx). apply Rabs_def1; lra.
  - pose proof (truncR_neg x Hx). apply Rabs_def1; lra.
Qed.

Lemma truncR_bounds (x : R) (lo hi : Z) :
  (lo <= 0 <= hi)%Z -> IZR lo <= x < IZR hi + 1 ->
  (lo <= truncR x <= hi)%Z.
Proof.
  intros [Hlo0 Hhi0] [Hlo Hhi].
  destruct (Rle_lt_dec 0 x) as [Hx|Hx].
  - pose proof (truncR_nonneg x Hx) as [Ht1 Ht2]. split.
    + apply Z.lt_succ_r. apply lt_IZR. rewrite succ_IZR. lra.
    + apply Z.lt_succ_r. apply lt_IZR. rewrite succ_IZR. lra.
  - pose proof (truncR_neg x Hx) as [Ht1 Ht2]. split.
    + apply le_IZR. lra.
    + assert (truncR x - 1 < 0)%Z; [|lia].
      apply lt_IZR. rewrite minus_IZR. lra.
Qed.

Lemma toInt16_range (x : R) : (-32768 <= toInt16 x < 32768)%Z.
Proof.
  unfold toInt16. pose proof (Z.mod_pos_bound (truncR x) 65536 ltac:(lia)).
  destruct (Z.ltb_spec (truncR x mod 65536) 32768); lia.
Qed.

Lemma toInt16_exact (x : R) :
  (-32768 <= truncR x < 32768)%Z -> toInt16 x = truncR x.
Proof.
  intros Hv. unfold toInt16.
  destruct (Z_lt_le_dec (truncR x) 0) as [Hneg|Hpos].
  - assert (Hm : (truncR x mod 65536 = truncR x + 65536)%Z).
    { symmetry. apply (Z.mod_unique _ 65536 (-1)); lia. }
    rewrite Hm. destruct (Z.ltb_spec (truncR x + 65536) 32768); lia.
  - rewrite Z.mod_small by lia.
    destruct (Z.ltb_spec (truncR x) 32768); lia.
Qed.

(** X2. The slot written for a sample in [-1, 1) holds the truncation of the
    scaled sample, without wrap-around; read back and divided by 32768 it is
    within 1/32768 of the sample. Whatever the sample, the slot holds a 16-bit
    value. *)
Theorem quantize_sample (x : R) :
  (-32768 <= toInt16 (x * 32768) < 32768)%Z
  /\ (-1 <= x < 1 ->
      toInt16 (x * 32768) = truncR (x * 32768)
      /\ Rabs (IZR (toInt16 (x * 32768)) / 32768 - x) < 1 / 32768).
Proof.
  split; [apply toInt16_range|]. intros [Hlo Hhi].
  assert (Hb : (-32768 <= truncR (x * 32768) <= 32767)%Z).
  { apply truncR_bounds; [lia|]. split; lra. }
  assert (Hexact : toInt16 (x * 32768) = truncR (x * 32768))
    by (apply toInt16_exact; lia).
  split; [exact Hexact|]. rewrite Hexact.
  pose proof (truncR_error (x * 32768)) as Herr.
  replace (IZR (truncR (x * 32768)) / 32768 - x)
    with ((IZR (truncR (x * 32768)) - x * 32768) / 32768) by (field; lra).
  unfold Rdiv at 1. rewrite Rabs_mult, (Rabs_right (/ 32768)).
  - unfold Rdiv. apply Rmult_lt_compat_r; [|exact Herr].
    apply Rinv_0_lt_compat. lra.
  - apply Rle_ge, Rlt_le, Rinv_0_lt_compat. lra.
Qed.

(** X3. A sample at or above full scale does not clip: from 1 up to 2 the slot
    wraps to a negative value. *)
Theorem quantize_overflow (x : R) :
  1 <= x < 2 ->
  toInt16 (x * 32768) = (truncR (x * 32768) - 65536)%Z
  /\ (toInt16 (x * 32768) < 0)%Z.
Proof.
  intros [Hlo Hhi].
  assert (Hpos : 0 <= x * 32768) by lra.
  pose proof (truncR_nonneg _ Hpos) as [Ht1 Ht2].
  assert (Hb : (32768 <= truncR (x * 32768) < 65536)%Z).
  { split.
    - apply Z.lt_succ_r. apply lt_IZR. rewrite succ_IZR. lra.
    - apply lt_IZR. lra. }
  unfold toInt16. rewrite Z.mod_small by lia.
  destruct (Z.ltb_spec (truncR (x * 32768)) 32768); lia.
Qed.

End Quantizer.

Lemma quantize_sample_witness :
  -1 <= 0 < 1 /\ toInt16 (0 * 32768) = truncR (0 * 32768).
Proof.
  assert (H : -1 <= 0 < 1) by lra.
  split; [exact H|]. exact (proj1 (proj2 (quantize_sample 0) H)).
Defined.

Lemma quantize_overflow_witness :
  1 <= 1 < 2 /\ (toInt16 (1 * 32768) < 0)%Z.
Proof.
  assert (H : 1 <= 1 < 2) by lra.
  split; [exact H|]. exact (proj2 (quantize_overflow 1 H)).
Defined.

(** X4. The bytes the capture tick lays out for its samples read back, through
    the 16-bit view the decoder uses, as the quantized samples: two bytes per
    sample, nothing lost. *)
Theorem tick_payload_roundtrip (inputData : list R) :
  let int16 := List.map (fun x => toInt16 (x * 32768)) inputData in
  int16_of_bytes (int16_buffer int16) = Some int16
  /\ String.length (int16_buffer int16) = (2 * length inputData)%nat.
Proof.
  intros int16.
  assert (Hrange : Forall (fun v => (-32768 <= v < 32768)%Z) int16).
  { apply Forall_forall. intros v Hin. apply list_elem_of_In in Hin.
    apply in_map_iff in Hin as [x [<- _]]. apply toInt16_range. }
  pose proof (int16_buffer_roundtrip int16 Hrange) as Hround.
  split; [exact Hround|].
  pose proof (int16_of_bytes_spec (int16_buffer int16)) as Hspec.
  rewrite Hround in Hspec. destruct Hspec as [Hlen _].
  rewrite Hlen. unfold int16. rewrite List.length_map. reflexivity.
Qed.

(** ** Teardown *)

Section Teardown.

(** Teardown in one equation: what it clears and what it leaves. *)
Lemma cleanup_frame (st : State) :
  cleanupAudioAndSession st =
    mkState (isConnected st) (isSpeaking st) (isBusy st) (messages st)
      (error st) (volume st) None None None None (nextStartTime st) ∅ None
      None (currentSessionIdRef st) (currentInputTrans st)
      (currentOutputTrans st) (outbound st) (pendingSends st) (playback st)
      (stopped st ∪ audioSources st) (speakingTimers st)
      (released st ++ teardownOrder st) (nextSource st).
Proof.
  unfold cleanupAudioAndSession, teardownOrder, held, stopAllSources.
  destruct st as [? ? ? ? ? ? inCtx outCtx proc src ? ? stream session
                  ? ? ? ? ? ? ? ? rel ?].
  cbn. destruct proc, src, stream, session, inCtx, outCtx; cbn;
    rewrite <- ?app_assoc, ?app_nil_r; reflexivity.
Qed.

(** X5. [cleanupAudioAndSession] lets go of everything the component holds, in
    one order: capture processor, stream source node, stream tracks, live
    session, input context, output context; then it stops every active source.
    Afterwards no handle is held and no source is active. *)
Theorem cleanup_releases_in_order (st : State) :
  released (cleanupAudioAndSession st) = released st ++ teardownOrder st
  /\ stopped (cleanupAudioAndSession st) = stopped st ∪ audioSources st
  /\ teardownOrder (cleanupAudioAndSession st) = []
  /\ audioSources (cleanupAudioAndSession st) = ∅.
Proof. rewrite cleanup_frame. repeat split. Qed.

Lemma held_nothing (ref : option Handle) (kind : Handle -> Resource) :
  held ref kind = [] -> ref = None.
Proof. destruct ref; [discriminate|reflexivity]. Qed.

Lemma cleanup_nothing_held (st : State) :
  teardownOrder st = [] -> audioSources st = ∅ ->
  cleanupAudioAndSession st = st.
Proof.
  intros Hheld Hsrc. rewrite cleanup_frame, Hheld, Hsrc.
  unfold teardownOrder in Hheld.
  repeat (apply app_eq_nil in Hheld as [?%held_nothing Hheld]).
  apply held_nothing in Hheld.
  destruct st. cbn in *. subst.
  rewrite app_nil_r, (right_id_L ∅ (∪)). reflexivity.
Qed.

Lemma cleanup_holds_nothing (st : State) :
  teardownOrder (cleanupAudioAndSession st) = []
  /\ audioSources (cleanupAudioAndSession st) = ∅.
Proof. rewrite cleanup_frame. split; reflexivity. Qed.

(** X6. Teardown twice is teardown once: the second pass finds nothing to
    release and nothing to stop. *)
Theorem cleanup_idempotent (st : State) :
  cleanupAudioAndSession (cleanupAudioAndSession st) = cleanupAudioAndSession st.
Proof.
  destruct (cleanup_holds_nothing st) as [Hheld Hsrc].
  apply cleanup_nothing_held; assumption.
Qed.

Lemma disconnect_frame (st : State) :
  disconnect false st =
    mkState false false false (messages st) (error st) 0 None None None None
      (nextStartTime st) ∅ None None 0%Z (currentInputTrans st)
      (currentOutputTrans st) (outbound st) (pendingSends st) (playback st)
      (stopped st ∪ audioSources st) (speakingTimers st)
      (released st ++ teardownOrder st) (nextSource st).
Proof.
  unfold disconnect. cbv beta iota zeta. rewrite cleanup_frame. reflexivity.
Qed.

(** X7. A disconnect that gets past the busy guard. It clears the connected,
    speaking and busy flags and the volume, makes 0 the session id, releases
    every handle in teardown order and stops every active source. It keeps the
    transcript and the error notice, and it neither rewinds the scheduler cursor
    nor empties the transcript accumulators or the queue of frames waiting for
    the session promise. *)
Theorem disconnect_resets_and_keeps (st : State) :
  let st' := disconnect false st in
  (isConnected st' = false /\ isSpeaking st' = false /\ isBusy st' = false
   /\ volume st' = 0 /\ currentSessionIdRef st' = 0%Z
   /\ teardownOrder st' = [] /\ audioSources st' = ∅
   /\ released st' = released st ++ teardownOrder st
   /\ stopped st' = stopped st ∪ audioSources st)
  /\ (messages st' = messages st /\ error st' = error st
      /\ nextStartTime st' = nextStartTime st
      /\ currentInputTrans st' = currentInputTrans st
      /\ currentOutputTrans st' = currentOutputTrans st
      /\ pendingSends st' = pendingSends st
      /\ outbound st' = outbound st).
Proof.
  cbv zeta. rewrite disconnect_frame. repeat split.
Qed.

End Teardown.

(** ** Who may write what *)

(** Case analysis on what a handler branches on, innermost test first. *)
Ltac cases :=
  repeat match goal with
         | |- context [match ?x with _ => _ end] =>
             lazymatch x with
             | context [match _ with _ => _ end] => fail
             | _ => destruct x; cbv beta iota
             end
         end.

Section Authority.
Context `{Builtins}.

Lemma handleTranscription_lifecycle (now : Z) (message : LiveServerMessage)
    (st : State) :
  lifecycleView (handleTranscription now message st) = lifecycleView st.
Proof. unfold handleTranscription. cases; reflexivity. Qed.

Lemma begin_lifecycle (base64Data : string) (st : State) :
  lifecycleView (fst (playAudioChunk_begin base64Data st)) = lifecycleView st.
Proof. unfold playAudioChunk_begin. cases; reflexivity. Qed.

Lemma interrupt_lifecycle (st : State) :
  lifecycleView (interrupt st) = lifecycleView st.
Proof. reflexivity. Qed.

Lemma resume_lifecycle (buf : AudioBuffer) (currentTime : R) (st : State) :
  lifecycleView (playAudioChunk_resume buf currentTime st) = lifecycleView st.
Proof. reflexivity. Qed.

(** [onmessage] leaves all of it alone, whatever the message. *)
Lemma onmessage_lifecycle (sessionId now : Z) (currentTime : R)
    (message : LiveServerMessage) (st : State) :
  lifecycleView (onmessage sessionId now currentTime message st)
    = lifecycleView st.
Proof.
  unfold onmessage. destruct (negb _); [reflexivity|].
  rewrite <- (handleTranscription_lifecycle now message st).
  generalize (handleTranscription now message st). intros st1.
  assert (Hbegin : forall base64Data,
             lifecycleView
               (let '(st2, decoding) := playAudioChunk_begin base64Data st1 in
                let st3 := if from_option interrupted false (serverContent message)
                           then interrupt st2 else st2 in
                match decoding with
                | Some buf => playAudioChunk_resume buf currentTime st3
                | None => st3
                end) = lifecycleView st1).
  { intros base64Data. pose proof (begin_lifecycle base64Data st1) as Hb.
    destruct (playAudioChunk_begin base64Data st1) as [st2 decoding].
    cbn [fst] in Hb. rewrite <- Hb.
    destruct (from_option interrupted false (serverContent message)),
      decoding; cbv zeta;
      rewrite ?resume_lifecycle, ?interrupt_lifecycle; reflexivity. }
  destruct (serverContent message ≫= audio) as [base64Data|].
  - destruct (audioContextOutput st1).
    + destruct (truthy base64Data); [apply Hbegin|].
      destruct (from_option interrupted false (serverContent message));
        reflexivity.
    + destruct (from_option interrupted false (serverContent message));
        reflexivity.
  - destruct (from_option interrupted false (serverContent message));
      reflexivity.
Qed.

Lemma view_token (st st' : State) :
  lifecycleView st' = lifecycleView st ->
  currentSessionIdRef st' = currentSessionIdRef st.
Proof. unfold lifecycleView. intros Heq. congruence. Qed.

(** X8. The current session id changes only in a [connect] call that gets past
    its guards and in a [disconnect] call that gets past its guard. *)
Theorem session_id_written_by_lifecycle (st : State) (ev : Event) :
  currentSessionIdRef (step st ev) <> currentSessionIdRef st ->
  (exists now, ev = Connect false true now) \/ ev = Disconnect false.
Proof.
  intros Hchanged.
  destruct ev as [busy onLine now|input output|busy|sessionId cb| |source|];
    cbn [step] in Hchanged.
  - destruct busy, onLine; try (exfalso; apply Hchanged; reflexivity).
    left. exists now. reflexivity.
  - exfalso. apply Hchanged. reflexivity.
  - destruct busy; [exfalso; apply Hchanged; reflexivity|]. right. reflexivity.
  - exfalso. apply Hchanged.
    destruct cb as [source processor|onLine inputData|frame
                    |now currentTime message| |e|stream|session|msg];
      cbn [fire].
    + unfold onopen. cases; reflexivity.
    + unfold onaudioprocess. cases; reflexivity.
    + unfold sendRealtimeInput. cases; reflexivity.
    + apply view_token, onmessage_lifecycle.
    + unfold onclose. cases; reflexivity.
    + unfold onerror. cases; reflexivity.
    + unfold connect_gotUserMedia. cases; reflexivity.
    + unfold connect_gotSession. cases; reflexivity.
    + unfold connect_catch. cases; reflexivity.
  - exfalso. apply Hchanged.
    destruct (pendingSends st) as [|[sessionId frame] rest]; [reflexivity|].
    unfold sendRealtimeInput. cases; reflexivity.
  - exfalso. apply Hchanged. unfold onended. cases; reflexivity.
  - exfalso. apply Hchanged. unfold speakingTimeout. cases; reflexivity.
Qed.

Lemma connect_frame (now : Z) (st : State) :
  connect false true now st =
    mkState (isConnected st) (isSpeaking st) true (messages st) None
      (volume st) None None None None (nextStartTime st) ∅ None None now
      (currentInputTrans st) (currentOutputTrans st) (outbound st)
      (pendingSends st) (playback st) (stopped st ∪ audioSources st)
      (speakingTimers st) (released st ++ teardownOrder st) (nextSource st).
Proof.
  unfold connect. cbv beta iota zeta. cbn [negb].
  rewrite cleanup_frame. reflexivity.
Qed.

(** X9. The connected flag goes up only in [onopen], fired for the session id
    that is current. *)
Theorem connected_raised_by_onopen (st : State) (ev : Event) :
  isConnected st = false ->
  isConnected (step st ev) = true ->
  exists source processor,
    ev = Fire (currentSessionIdRef st) (Opened source processor).
Proof.
  intros Hoff Hon.
  destruct ev as [busy onLine now|input output|busy|sessionId cb| |source|];
    cbn [step] in Hon.
  - exfalso. destruct busy, onLine;
      rewrite ?connect_frame in Hon; cbn in Hon; congruence.
  - exfalso. cbn in Hon. congruence.
  - exfalso. destruct busy; [cbn in Hon; congruence|].
    rewrite disconnect_frame in Hon. discriminate.
  - destruct cb as [source processor|onLine inputData|frame
                    |now currentTime message| |e|stream|session|msg];
      cbn [fire] in Hon.
    + destruct (Z.eq_dec (currentSessionIdRef st) sessionId) as [<-|Hne].
      * exists source, processor. reflexivity.
      * rewrite stale_onopen in Hon by exact Hne. congruence.
    + exfalso. revert Hon. unfold onaudioprocess. cases; cbn; congruence.
    + exfalso. revert Hon. unfold sendRealtimeInput. cases; cbn; congruence.
    + exfalso.
      pose proof (onmessage_lifecycle sessionId now currentTime message st)
        as Hview.
      unfold lifecycleView in Hview. congruence.
    + exfalso. revert Hon. unfold onclose. cases; cbn; congruence.
    + exfalso. revert Hon. unfold onerror. cases; cbn; congruence.
    + exfalso. revert Hon. unfold connect_gotUserMedia. cases; cbn; congruence.
    + exfalso. revert Hon. unfold connect_gotSession. cases; cbn; congruence.
    + exfalso. revert Hon. unfold connect_catch. cases; cbn; congruence.
  - exfalso. revert Hon.
    destruct (pendingSends st) as [|[sessionId frame] rest]; [congruence|].
    unfold sendRealtimeInput. cases; cbn; congruence.
  - exfalso. revert Hon. unfold onended. cases; cbn; congruence.
  - exfalso. revert Hon. unfold speakingTimeout. cases; cbn; congruence.
Qed.

(** X10. The log of frames handed to the transport only grows, one frame at a
    time, and only when a send reaction runs whose tag is the session id current
    at that moment; the oldest waiting reaction goes first. *)
Theorem outbound_only_under_current_id (st : State) (ev : Event) :
  outbound (step st ev) = outbound st
  \/ exists frame,
       outbound (step st ev) = outbound st ++ [frame]
       /\ (ev = Fire (currentSessionIdRef st) (SessionThen frame)
           \/ (ev = SessionResolved
               /\ exists rest,
                    pendingSends st = (currentSessionIdRef st, frame) :: rest)).
Proof.
  destruct ev as [busy onLine now|input output|busy|sessionId cb| |source|];
    cbn [step].
  - left. destruct busy, onLine; rewrite ?connect_frame; reflexivity.
  - left. reflexivity.
  - left. destruct busy; [reflexivity|]. rewrite disconnect_frame. reflexivity.
  - destruct cb as [source processor|onLine inputData|frame
                    |now currentTime message| |e|stream|session|msg];
      cbn [fire].
    + left. unfold onopen. cases; reflexivity.
    + left. unfold onaudioprocess. cases; reflexivity.
    + unfold sendRealtimeInput.
      destruct (Z.eqb_spec (currentSessionIdRef st) sessionId) as [<-|Hne].
      * right. exists frame. split; [reflexivity|]. left. reflexivity.
      * left. reflexivity.
    + left.
      pose proof (onmessage_lifecycle sessionId now currentTime message st)
        as Hview.
      unfold lifecycleView in Hview. congruence.
    + left. unfold onclose. cases; reflexivity.
    + left. unfold onerror. cases; reflexivity.
    + left. unfold connect_gotUserMedia. cases; reflexivity.
    + left. unfold connect_gotSession. cases; reflexivity.
    + left. unfold connect_catch. cases; reflexivity.
  - destruct (pendingSends st) as [|[sessionId frame] rest] eqn:Hqueue;
      [left; reflexivity|].
    unfold sendRealtimeInput. cbn [currentSessionIdRef set_pendingSends].
    destruct (Z.eqb_spec (currentSessionIdRef st) sessionId) as [<-|Hne].
    + right. exists frame. split; [reflexivity|]. right.
      split; [reflexivity|]. exists rest. reflexivity.
    + left. reflexivity.
  - left. unfold onended. cases; reflexivity.
  - left. unfold speakingTimeout. cases; reflexivity.
Qed.

(** X11. The transcript accumulators are written only by [onmessage] under the
    current session id: no connect, disconnect, open, close or error empties
    them, so text left over when a session ends is still there when the next one
    receives its first fragment. *)
Theorem accumulators_written_by_onmessage (st : State) (ev : Event) :
  (currentInputTrans (step st ev), currentOutputTrans (step st ev))
    <> (currentInputTrans st, currentOutputTrans st) ->
  exists now currentTime message,
    ev = Fire (currentSessionIdRef st) (Received now currentTime message).
Proof.
  intros Hchanged.
  destruct ev as [busy onLine now|input output|busy|sessionId cb| |source|];
    cbn [step] in Hchanged.
  - exfalso. apply Hchanged.
    destruct busy, onLine; rewrite ?connect_frame; reflexivity.
  - exfalso. apply Hchanged. reflexivity.
  - exfalso. apply Hchanged. destruct busy; [reflexivity|].
    rewrite disconnect_frame. reflexivity.
  - destruct cb as [source processor|onLine inputData|frame
                    |now currentTime message| |e|stream|session|msg];
      cbn [fire] in Hchanged.
    + exfalso. apply Hchanged. unfold onopen. cases; reflexivity.
    + exfalso. apply Hchanged. unfold onaudioprocess. cases; reflexivity.
    + exfalso. apply Hchanged. unfold sendRealtimeInput. cases; reflexivity.
    + destruct (Z.eq_dec (currentSessionIdRef st) sessionId) as [<-|Hne].
      * exists now, currentTime, message. reflexivity.
      * exfalso. apply Hchanged. rewrite stale_onmessage by exact Hne.
        reflexivity.
    + exfalso. apply Hchanged. unfold onclose. cases; reflexivity.
    + exfalso. apply Hchanged. unfold onerror. cases; reflexivity.
    + exfalso. apply Hchanged. unfold connect_gotUserMedia. cases; reflexivity.
    + exfalso. apply Hchanged. unfold connect_gotSession. cases; reflexivity.
    + exfalso. apply Hchanged. unfold connect_catch. cases; reflexivity.
  - exfalso. apply Hchanged.
    destruct (pendingSends st) as [|[sessionId frame] rest]; [reflexivity|].
    unfold sendRealtimeInput. cases; reflexivity.
  - exfalso. apply Hchanged. unfold onended. cases; reflexivity.
  - exfalso. apply Hchanged. unfold speakingTimeout. cases; reflexivity.
Qed.

End Authority.

(** ** What the scheduler keeps *)

Section SchedulerInvariant.
Context `{Builtins}.

Lemma calm_refl (st : State) : calm st st.
Proof. repeat split; [reflexivity|left; reflexivity]. Qed.

Lemma calm_trans (st1 st2 st3 : State) :
  calm st1 st2 -> calm st2 st3 -> calm st1 st3.
Proof.
  intros (Hp1 & Hn1 & Hs1 & Hc1) (Hp2 & Hn2 & Hs2 & Hc2).
  split; [congruence|]. split; [congruence|]. split; [set_solver|].
  destruct Hc2 as [Hc2|[Hz Hempty]].
  - destruct Hc1 as [Hc1|[Hz Hempty]].
    + left. congruence.
    + right. split; [congruence|]. set_solver.
  - right. split; assumption.
Qed.

Lemma calm_keeps (st st' : State) :
  Scheduled st -> calm st st' -> Scheduled st'.
Proof.
  intros Hinv (Hp & Hn & Hs & Hc). destruct Hinv.
  split; rewrite ?Hp, ?Hn.
  - destruct Hc as [->|[-> _]]; [assumption|lra].
  - assumption.
  - assumption.
  - assumption.
  - intros i Hi. apply active_started0. set_solver.
  - intros p Hp' Hact. destruct Hc as [->|[_ Hempty]].
    + apply active_end_by_cursor0; [assumption|set_solver].
    + rewrite Hempty in Hact. set_solver.
  - intros p q Hp' Hq' Hlt Hap Haq.
    apply active_apart0; try assumption; set_solver.
Qed.

Lemma resume_keeps (buf : AudioBuffer) (currentTime : R) (st : State) :
  Scheduled st -> 0 < duration buf ->
  Scheduled (playAudioChunk_resume buf currentTime st).
Proof.
  intros Hinv Hdur. destruct Hinv.
  pose proof (Rmax_r currentTime (nextStartTime st)) as Hmax.
  unfold playAudioChunk_resume. cbv zeta.
  split;
    cbn [nextStartTime playback nextSource audioSources set_audioSources
         set_nextStartTime set_playback set_nextSource].
  - lra.
  - apply Forall_app. split; [assumption|].
    constructor; [|constructor]. cbn. split; [lra|assumption].
  - rewrite List.map_app. cbn [List.map sourceId].
    apply sorting.StronglySorted_app_2; [|assumption|repeat constructor].
    intros x y Hx Hy. apply list_elem_of_singleton in Hy. subst y.
    apply list_elem_of_In, in_map_iff in Hx as [p [<- Hin]].
    rewrite Forall_forall in ids_fresh0. apply ids_fresh0.
    apply list_elem_of_In. exact Hin.
  - apply Forall_app. split.
    + eapply Forall_impl; [exact ids_fresh0|]. cbn. intros p Hp. lia.
    + constructor; [cbn; lia|constructor].
  - intros i Hi. apply elem_of_union in Hi as [Hi|Hi].
    + destruct (active_started0 i Hi) as [p [Hp Hid]].
      exists p. split; [apply elem_of_app; left; exact Hp|exact Hid].
    + apply elem_of_singleton in Hi. subst i.
      eexists. split; [apply elem_of_app; right; apply list_elem_of_singleton;
                       reflexivity|reflexivity].
  - intros p Hp Hact. apply elem_of_app in Hp as [Hp|Hp].
    + assert (Hold : sourceId p ∈ audioSources st).
      { apply elem_of_union in Hact as [Hact|Hact]; [exact Hact|].
        apply elem_of_singleton in Hact.
        rewrite Forall_forall in ids_fresh0.
        pose proof (ids_fresh0 p Hp). lia. }
      pose proof (active_end_by_cursor0 p Hp Hold). lra.
    + apply list_elem_of_singleton in Hp. subst p. unfold sourceEnd. cbn. lra.
  - intros p q Hp Hq Hlt Hap Haq.
    rewrite Forall_forall in ids_fresh0.
    apply elem_of_app in Hp as [Hp|Hp].
    + assert (Holdp : sourceId p ∈ audioSources st).
      { apply elem_of_union in Hap as [Hap|Hap]; [exact Hap|].
        apply elem_of_singleton in Hap. pose proof (ids_fresh0 p Hp). lia. }
      apply elem_of_app in Hq as [Hq|Hq].
      * assert (Holdq : sourceId q ∈ audioSources st).
        { apply elem_of_union in Haq as [Haq|Haq]; [exact Haq|].
          apply elem_of_singleton in Haq. pose proof (ids_fresh0 q Hq). lia. }
        apply active_apart0; assumption.
      * apply list_elem_of_singleton in Hq. subst q. cbn.
        pose proof (active_end_by_cursor0 p Hp Holdp). lra.
    + apply list_elem_of_singleton in Hp. subst p. cbn in Hlt.
      apply elem_of_app in Hq as [Hq|Hq].
      * pose proof (ids_fresh0 q Hq). lia.
      * apply list_elem_of_singleton in Hq. subst q. cbn in Hlt. lia.
Qed.

Lemma calm_same (st st' : State) :
  playback st' = playback st -> nextSource st' = nextSource st ->
  audioSources st' = audioSources st -> nextStartTime st' = nextStartTime st ->
  calm st st'.
Proof.
  intros Hp Hn Hs Hc. split; [exact Hp|]. split; [exact Hn|].
  split; [rewrite Hs; reflexivity|left; exact Hc].
Qed.

Lemma calm_stopAll (st : State) : calm st (stopAllSources st).
Proof.
  split; [reflexivity|]. split; [reflexivity|].
  split; [apply empty_subseteq|left; reflexivity].
Qed.

Lemma calm_interrupt (st : State) : calm st (interrupt st).
Proof.
  split; [reflexivity|]. split; [reflexivity|].
  split; [apply empty_subseteq|right; split; reflexivity].
Qed.

Lemma calm_cleanup (st : State) : calm st (cleanupAudioAndSession st).
Proof.
  rewrite cleanup_frame. split; [reflexivity|]. split; [reflexivity|].
  split; [apply empty_subseteq|left; reflexivity].
Qed.

Lemma calm_handleTranscription (now : Z) (message : LiveServerMessage)
    (st : State) :
  calm st (handleTranscription now message st).
Proof.
  unfold handleTranscription.
  cases;
    first [ apply calm_same; reflexivity
          | split; [reflexivity|]; split; [reflexivity|];
            split; [apply empty_subseteq|left; reflexivity] ].
Qed.

Lemma calm_begin (base64Data : string) (st : State) :
  calm st (fst (playAudioChunk_begin base64Data st)).
Proof.
  unfold playAudioChunk_begin. cases; apply calm_same; reflexivity.
Qed.

Lemma calm_onended (source : SourceId) (st : State) :
  calm st (onended source st).
Proof.
  unfold onended. cases;
    (split; [reflexivity|]; split; [reflexivity|];
     split; [apply subseteq_difference_l; reflexivity|left; reflexivity]).
Qed.

Lemma begin_duration (base64Data : string) (st st1 : State)
    (buf : AudioBuffer) :
  playAudioChunk_begin base64Data st = (st1, Some buf) -> 0 < duration buf.
Proof. intros Hbegin. exact (proj1 (begin_decoded _ _ _ _ Hbegin)). Qed.

Lemma onmessage_keeps (sessionId now : Z) (currentTime : R)
    (message : LiveServerMessage) (st : State) :
  Scheduled st -> Scheduled (onmessage sessionId now currentTime message st).
Proof.
  intros Hinv. unfold onmessage. destruct (negb _); [exact Hinv|].
  pose proof (calm_keeps _ _ Hinv (calm_handleTranscription now message st))
    as Hinv1.
  generalize dependent (handleTranscription now message st). intros st1 Hinv1.
  assert (Hrest : forall st2 decoding,
             Scheduled st2 ->
             (forall buf, decoding = Some buf -> 0 < duration buf) ->
             Scheduled
               (let st3 := if from_option interrupted false (serverContent message)
                           then interrupt st2 else st2 in
                match decoding with
                | Some buf => playAudioChunk_resume buf currentTime st3
                | None => st3
                end)).
  { intros st2 decoding Hinv2 Hdur. cbv zeta.
    assert (Hinv3 : Scheduled
                      (if from_option interrupted false (serverContent message)
                       then interrupt st2 else st2)).
    { destruct (from_option interrupted false (serverContent message));
        [|exact Hinv2]. exact (calm_keeps _ _ Hinv2 (calm_interrupt st2)). }
    destruct decoding as [buf|]; [|exact Hinv3].
    apply resume_keeps; [exact Hinv3|]. apply Hdur. reflexivity. }
  destruct (serverContent message ≫= audio) as [base64Data|];
    [|apply (Hrest st1 None Hinv1); discriminate].
  destruct (audioContextOutput st1);
    [|apply (Hrest st1 None Hinv1); discriminate].
  destruct (truthy base64Data);
    [|apply (Hrest st1 None Hinv1); discriminate].
  pose proof (calm_begin base64Data st1) as Hcalm.
  destruct (playAudioChunk_begin base64Data st1) as [st2 decoding] eqn:Hbegin.
  cbn [fst] in Hcalm. apply Hrest.
  - exact (calm_keeps _ _ Hinv1 Hcalm).
  - intros buf ->. exact (begin_duration _ _ _ _ Hbegin).
Qed.

Lemma step_keeps (st : State) (ev : Event) :
  Scheduled st -> Scheduled (step st ev).
Proof.
  intros Hinv.
  destruct ev as [busy onLine now|input output|busy|sessionId cb| |source|];
    cbn [step].
  - destruct busy, onLine; try exact Hinv.
    + rewrite connect_frame. apply (calm_keeps st); [exact Hinv|].
      split; [reflexivity|]. split; [reflexivity|].
      split; [apply empty_subseteq|left; reflexivity].
    + apply (calm_keeps st); [exact Hinv|]. apply calm_same; reflexivity.
  - apply (calm_keeps st); [exact Hinv|]. apply calm_same; reflexivity.
  - destruct busy; [exact Hinv|]. rewrite disconnect_frame.
    apply (calm_keeps st); [exact Hinv|].
    split; [reflexivity|]. split; [reflexivity|].
    split; [apply empty_subseteq|left; reflexivity].
  - destruct cb as [source processor|onLine inputData|frame
                    |now currentTime message| |e|stream|session|msg];
      cbn [fire].
    + apply (calm_keeps st); [exact Hinv|]. unfold onopen.
      cases; apply calm_same; reflexivity.
    + apply (calm_keeps st); [exact Hinv|]. unfold onaudioprocess.
      cases; apply calm_same; reflexivity.
    + apply (calm_keeps st); [exact Hinv|]. unfold sendRealtimeInput.
      cases; apply calm_same; reflexivity.
    + apply onmessage_keeps. exact Hinv.
    + apply (calm_keeps st); [exact Hinv|]. unfold onclose.
      cases; apply calm_same; reflexivity.
    + apply (calm_keeps st); [exact Hinv|]. unfold onerror.
      cases; apply calm_same; reflexivity.
    + apply (calm_keeps st); [exact Hinv|]. unfold connect_gotUserMedia.
      cases; apply calm_same; reflexivity.
    + apply (calm_keeps st); [exact Hinv|]. unfold connect_gotSession.
      cases; apply calm_same; reflexivity.
    + apply (calm_keeps st); [exact Hinv|]. unfold connect_catch.
      cases; apply calm_same; reflexivity.
  - destruct (pendingSends st) as [|[sessionId frame] rest]; [exact Hinv|].
    apply (calm_keeps st); [exact Hinv|]. unfold sendRealtimeInput.
    cases; apply calm_same; reflexivity.
  - exact (calm_keeps _ _ Hinv (calm_onended source st)).
  - apply (calm_keeps st); [exact Hinv|]. unfold speakingTimeout.
    cases; apply calm_same; reflexivity.
Qed.

Lemma initial_scheduled : Scheduled initialState.
Proof.
  split; cbn.
  - lra.
  - constructor.
  - constructor.
  - constructor.
  - intros i Hi. apply not_elem_of_empty in Hi. contradiction.
  - intros p Hp. apply not_elem_of_nil in Hp. contradiction.
  - intros p q Hp. apply not_elem_of_nil in Hp. contradiction.
Qed.

Lemma run_keeps (st : State) (evs : list Event) :
  Scheduled st -> Scheduled (run st evs).
Proof.
  revert st. induction evs as [|ev evs IH]; intros st Hinv; [exact Hinv|].
  cbn [run fold_left]. apply IH. apply step_keeps. exact Hinv.
Qed.

(** X12. Whatever happens to the component from its first render on, the
    scheduler cursor is never negative and no source is ever started at a
    negative time or with an empty buffer. *)
Theorem starts_never_negative (evs : list Event) :
  0 <= nextStartTime (run initialState evs)
  /\ Forall (fun p => 0 <= scheduledStart p /\ 0 < duration (buffer p))
       (playback (run initialState evs)).
Proof.
  destruct (run_keeps initialState evs initial_scheduled).
  split; assumption.
Qed.

(** X13. Whatever happens, the sources that are active are played back to back
    at most: of two active sources the one started earlier has ended when the
    other begins, and every active source ends by the cursor. *)
Theorem active_sources_never_overlap (evs : list Event)
    (p q : PlaybackSource) :
  let st := run initialState evs in
  p ∈ playback st -> q ∈ playback st ->
  sourceId p ∈ audioSources st -> sourceId q ∈ audioSources st ->
  (sourceId p < sourceId q)%nat ->
  sourceEnd p <= scheduledStart q /\ sourceEnd q <= nextStartTime st.
Proof.
  intros st Hp Hq Hap Haq Hlt.
  destruct (run_keeps initialState evs initial_scheduled).
  split; [apply active_apart0; assumption|].
  apply active_end_by_cursor0; assumption.
Qed.

Lemma increasing_NoDup (l : list nat) : StronglySorted lt l -> NoDup l.
Proof.
  induction 1 as [|x l _ IH Hall]; constructor; [|exact IH].
  intros Hin. rewrite Forall_forall in Hall. pose proof (Hall x Hin). lia.
Qed.

(** X14. Whatever happens, every source gets an identity of its own, in order of
    arrival, and every active source is one that was started. *)
Theorem sources_started_once (evs : list Event) :
  let st := run initialState evs in
  StronglySorted lt (List.map sourceId (playback st))
  /\ NoDup (List.map sourceId (playback st))
  /\ forall i, i ∈ audioSources st ->
       exists p, p ∈ playback st /\ sourceId p = i.
Proof.
  intros st. destruct (run_keeps initialState evs initial_scheduled).
  split; [assumption|]. split; [|assumption].
  apply increasing_NoDup. assumption.
Qed.

End SchedulerInvariant.

(** ** The transcript as a list *)

Section TranscriptList.
Context `{Builtins}.

Lemma retains_refl (l : list Message) : retains l l.
Proof.
  split; [|reflexivity]. exists (match last l with Some m => [m] | None => [] end).
  destruct l as [|m l] using rev_ind; [reflexivity|].
  rewrite removelast_last, last_snoc. reflexivity.
Qed.

Lemma removelast_prefix (l : list Message) : removelast l `prefix_of` l.
Proof. apply retains_refl. Qed.

Lemma removelast_length (l : list Message) :
  length (removelast l) = pred (length l).
Proof.
  destruct l as [|m l] using rev_ind; [reflexivity|].
  rewrite removelast_last, length_app. cbn. lia.
Qed.

Lemma retains_trans (l1 l2 l3 : list Message) :
  retains l1 l2 -> retains l2 l3 -> retains l1 l3.
Proof.
  intros [Hp1 Hl1] [Hp2 Hl2]. split; [|lia].
  transitivity (removelast l2); [|exact Hp2].
  pose proof (removelast_prefix l2) as Hp.
  destruct (prefix_weak_total (removelast l1) (removelast l2) l2 Hp1 Hp)
    as [Hok|Hback]; [exact Hok|].
  apply prefix_length in Hback as Hlen.
  rewrite !removelast_length in Hlen.
  destruct l1 as [|m1 l1].
  - apply prefix_nil.
  - cbn [length] in *.
    assert (Heq : length (removelast l2) = length (removelast (m1 :: l1))).
    { rewrite !removelast_length. cbn [length]. lia. }
    apply prefix_length_eq in Hback; [|lia]. rewrite Hback. reflexivity.
Qed.

Lemma updateMessageState_retains (now : Z) (r : Role) (txt : string)
    (complete : bool) (prev : list Message) :
  retains prev (updateMessageState now r txt complete prev).
Proof.
  unfold updateMessageState.
  destruct (last prev) as [lastMsg|] eqn:Hlast.
  - destruct (bool_decide _ && negb _).
    + split; [apply prefix_app_r; reflexivity|].
      rewrite length_app, removelast_length. cbn.
      destruct prev; [discriminate|cbn; lia].
    + destruct (truthy _); [|apply retains_refl].
      split; [|rewrite length_app; lia].
      etransitivity; [apply removelast_prefix|]. apply prefix_app_r. reflexivity.
  - destruct (truthy _); [|apply retains_refl].
    split; [|rewrite length_app; lia].
    etransitivity; [apply removelast_prefix|]. apply prefix_app_r. reflexivity.
Qed.

Lemma handleTranscription_retains (now : Z) (message : LiveServerMessage)
    (st : State) :
  retains (messages st) (messages (handleTranscription now message st)).
Proof.
  unfold handleTranscription.
  set (update r txt c l := updateMessageState now r txt c l).
  assert (Hup : forall r txt c l l0, retains l0 l -> retains l0 (update r txt c l)).
  { intros r txt c l l0 Hl. eapply retains_trans; [exact Hl|].
    apply updateMessageState_retains. }
  cases; cbn [messages set_messages set_currentInputTrans
              set_currentOutputTrans set_isSpeaking stopAllSources
              set_audioSources set_stopped];
    repeat apply Hup; apply retains_refl.
Qed.

Lemma onmessage_messages (sessionId now : Z) (currentTime : R)
    (message : LiveServerMessage) (st : State) :
  currentSessionIdRef st = sessionId ->
  transcriptView (onmessage sessionId now currentTime message st)
    = transcriptView (handleTranscription now message st).
Proof.
  intros Htok. unfold onmessage. rewrite Htok, Z.eqb_refl. cbn [negb].
  generalize (handleTranscription now message st). intros st1.
  assert (Hbegin : forall base64Data,
             transcriptView (fst (playAudioChunk_begin base64Data st1))
             = transcriptView st1).
  { intros base64Data. unfold playAudioChunk_begin. cases; reflexivity. }
  assert (Hrest : forall st2 decoding,
             transcriptView
               (let st3 := if from_option interrupted false (serverContent message)
                           then interrupt st2 else st2 in
                match decoding with
                | Some buf => playAudioChunk_resume buf currentTime st3
                | None => st3
                end) = transcriptView st2).
  { intros st2 decoding.
    destruct (from_option interrupted false (serverContent message)),
      decoding; reflexivity. }
  destruct (serverContent message ≫= audio) as [base64Data|];
    [|apply (Hrest st1 None)].
  destruct (audioContextOutput st1); [|apply (Hrest st1 None)].
  destruct (truthy base64Data); [|apply (Hrest st1 None)].
  specialize (Hbegin base64Data).
  destruct (playAudioChunk_begin base64Data st1) as [st2 decoding].
  cbn [fst] in Hbegin. rewrite <- Hbegin. apply Hrest.
Qed.

(** X15. The transcript is append-only but for its last entry: an event either
    is [onopen] under the current session id, which empties the list, or leaves
    every entry but the last as it is and where it is, and does not shorten the
    list. *)
Theorem transcript_append_only (st : State) (ev : Event) :
  retains (messages st) (messages (step st ev))
  \/ (messages (step st ev) = []
      /\ exists source processor,
           ev = Fire (currentSessionIdRef st) (Opened source processor)).
Proof.
  assert (Hsame : forall st', messages st' = messages st ->
                              retains (messages st) (messages st')).
  { intros st' ->. apply retains_refl. }
  destruct ev as [busy onLine now|input output|busy|sessionId cb| |source|];
    cbn [step].
  - left. apply Hsame. destruct busy, onLine; rewrite ?connect_frame; reflexivity.
  - left. apply Hsame. reflexivity.
  - left. apply Hsame. destruct busy; [reflexivity|].
    rewrite disconnect_frame. reflexivity.
  - destruct cb as [source processor|onLine inputData|frame
                    |now currentTime message| |e|stream|session|msg];
      cbn [fire].
    + destruct (Z.eq_dec (currentSessionIdRef st) sessionId) as [<-|Hne].
      * right. split; [|exists source, processor; reflexivity].
        unfold onopen. rewrite Z.eqb_refl. cbn [negb]. cbn.
        destruct (audioContextInput st); reflexivity.
      * left. rewrite stale_onopen by exact Hne. apply retains_refl.
    + left. apply Hsame. unfold onaudioprocess. cases; reflexivity.
    + left. apply Hsame. unfold sendRealtimeInput. cases; reflexivity.
    + left. destruct (Z.eq_dec (currentSessionIdRef st) sessionId) as [Heq|Hne].
      * pose proof (onmessage_messages sessionId now currentTime message st Heq)
          as Hview.
        unfold transcriptView in Hview.
        replace (messages (onmessage sessionId now currentTime message st))
          with (messages (handleTranscription now message st)) by congruence.
        apply handleTranscription_retains.
      * rewrite stale_onmessage by exact Hne. apply retains_refl.
    + left. apply Hsame. unfold onclose. cases; reflexivity.
    + left. apply Hsame. unfold onerror. cases; reflexivity.
    + left. apply Hsame. unfold connect_gotUserMedia. cases; reflexivity.
    + left. apply Hsame. unfold connect_gotSession. cases; reflexivity.
    + left. apply Hsame. unfold connect_catch. cases; reflexivity.
  - left. apply Hsame.
    destruct (pendingSends st) as [|[sessionId frame] rest]; [reflexivity|].
    unfold sendRealtimeInput. cases; reflexivity.
  - left. apply Hsame. unfold onended. cases; reflexivity.
  - left. apply Hsame. unfold speakingTimeout. cases; reflexivity.
Qed.

Lemma truthy_false (s : string) : truthy s = false -> s = "".
Proof. destruct s; [reflexivity|discriminate]. Qed.

(** X16. A message with the turn-complete flag, received under the current
    session id, leaves both accumulators empty, whatever else it carries. *)
Theorem turnComplete_empties_accumulators (sessionId now : Z)
    (currentTime : R) (message : LiveServerMessage) (st : State) :
  currentSessionIdRef st = sessionId ->
  from_option turnComplete false (serverContent message) = true ->
  currentInputTrans (onmessage sessionId now currentTime message st) = ""
  /\ currentOutputTrans (onmessage sessionId now currentTime message st) = "".
Proof.
  intros Htok Hturn.
  assert (Hh : currentInputTrans (handleTranscription now message st) = ""
               /\ currentOutputTrans (handleTranscription now message st) = "").
  { unfold handleTranscription. rewrite Hturn.
    match goal with
    | |- context [if truthy (currentInputTrans ?s) then _ else _] =>
        generalize s
    end.
    intros st1. destruct (truthy (currentInputTrans st1)) eqn:Hin.
    - cbn [currentOutputTrans set_currentInputTrans set_messages].
      destruct (truthy (currentOutputTrans st1)) eqn:Hout.
      + split; reflexivity.
      + split; [reflexivity|]. cbn. apply truthy_false. exact Hout.
    - destruct (truthy (currentOutputTrans st1)) eqn:Hout.
      + split; [|reflexivity]. cbn. apply truthy_false. exact Hin.
      + split; apply truthy_false; assumption. }
  destruct Hh as [Hin Hout].
  pose proof (onmessage_messages sessionId now currentTime message st Htok)
    as Hview.
  unfold transcriptView in Hview.
  split; [congruence|].
  unfold onmessage. rewrite Htok, Z.eqb_refl. cbn [negb].
  revert Hout. generalize (handleTranscription now message st). intros st1 Hout.
  assert (Hbegin : forall base64Data,
             currentOutputTrans (fst (playAudioChunk_begin base64Data st1))
             = currentOutputTrans st1).
  { intros base64Data. unfold playAudioChunk_begin. cases; reflexivity. }
  assert (Hrest : forall st2 decoding,
             currentOutputTrans st2 = "" ->
             currentOutputTrans
               (let st3 := if from_option interrupted false (serverContent message)
                           then interrupt st2 else st2 in
                match decoding with
                | Some buf => playAudioChunk_resume buf currentTime st3
                | None => st3
                end) = "").
  { intros st2 decoding Hempty.
    destruct (from_option interrupted false (serverContent message)),
      decoding; cbn; try exact Hempty; reflexivity. }
  destruct (serverContent message ≫= audio) as [base64Data|];
    [|apply (Hrest st1 None Hout)].
  destruct (audioContextOutput st1); [|apply (Hrest st1 None Hout)].
  destruct (truthy base64Data); [|apply (Hrest st1 None Hout)].
  specialize (Hbegin base64Data).
  destruct (playAudioChunk_begin base64Data st1) as [st2 decoding].
  cbn [fst] in Hbegin. apply Hrest. congruence.
Qed.

End TranscriptList.

(** ** Fragments in sequence *)

Section Fragments.
Context `{Builtins}.

Lemma fragmentsText_snoc (fs : list (Z * R * string)) (f : Z * R * string) :
  fragmentsText (fs ++ [f]) = fragmentsText fs +:+ f.2.
Proof. unfold fragmentsText. rewrite fold_left_app. reflexivity. Qed.

(** X17. Any number of fragments of the model, one after the other, make one
    open entry: the first fragment (not blank) creates it, each later one
    rewrites it in place, and its text and the accumulator are the fragments
    concatenated in arrival order. *)
Theorem model_fragments_accumulate (sessionId : Z) (first : Z * R * string)
    (more : list (Z * R * string)) (st : State) :
  currentSessionIdRef st = sessionId ->
  currentOutputTrans st = "" ->
  trailingPending model (messages st) = false ->
  truthy (trim first.2) = true ->
  let st' := run st (List.map (modelFragment sessionId) (first :: more)) in
  messages st' =
    messages st
      ++ [mkMessage (pretty first.1.1) model (fragmentsText (first :: more))
            false]
  /\ currentOutputTrans st' = fragmentsText (first :: more)
  /\ currentSessionIdRef st' = sessionId.
Proof.
  intros Htok Hout Hlast Htrim. cbv zeta.
  induction more as [|f more IH] using rev_ind.
  - cbn [List.map run fold_left step modelFragment fire].
    rewrite (received_outputFragment _ _ _ _ st Htok), Hout.
    cbn [messages set_messages currentOutputTrans set_currentOutputTrans
         currentSessionIdRef].
    change ("" +:+ first.2) with first.2.
    rewrite (updateMessageState_appends _ _ _ _ _ Hlast Htrim).
    repeat split. exact Htok.
  - destruct IH as (Hmsgs & Hacc & Htok').
    rewrite !app_comm_cons, List.map_app.
    cbn [List.map]. rewrite run_snoc. cbn [step modelFragment fire].
    rewrite (received_outputFragment _ _ _ _ _ Htok').
    cbn [messages set_messages currentOutputTrans set_currentOutputTrans
         currentSessionIdRef].
    rewrite Hmsgs, Hacc, updateMessageState_extends.
    rewrite <- (fragmentsText_snoc (first :: more) f).
    repeat split. exact Htok'.
Qed.

(** X18. After an interruption the model's open entry stays open and keeps its
    identity, but the accumulator is empty: the next fragment of the model
    replaces the entry's text instead of extending it. *)
Theorem interrupted_entry_is_overwritten (sessionId n1 n2 : Z) (t1 t2 : R)
    (prev : list Message) (i old s : string) (st : State) :
  currentSessionIdRef st = sessionId ->
  messages st = prev ++ [mkMessage i model old false] ->
  let st' := run st [Fire sessionId (Received n1 t1 interruptedSignal);
                     Fire sessionId (Received n2 t2 (outputFragment s))] in
  messages st' = prev ++ [mkMessage i model s false]
  /\ currentOutputTrans st' = s.
Proof.
  intros Htok Hmsgs. cbv zeta. cbn [run fold_left step fire].
  assert (Hint : onmessage sessionId n1 t1 interruptedSignal st = interrupt st).
  { unfold onmessage. rewrite Htok, Z.eqb_refl. reflexivity. }
  rewrite Hint.
  rewrite (received_outputFragment _ _ _ _ (interrupt st) Htok).
  cbn [interrupt messages set_messages currentOutputTrans
       set_currentOutputTrans set_isSpeaking set_nextStartTime stopAllSources
       set_audioSources set_stopped].
  change ("" +:+ s) with s.
  rewrite Hmsgs, updateMessageState_extends. split; reflexivity.
Qed.

End Fragments.

(** ** The stop command through a turn *)

Section StopCommand.

Lemma prefix_append (p s t : string) :
  String.prefix p s = true -> String.prefix p (s +:+ t) = true.
Proof.
  revert s. induction p as [|c p IH]; intros s Hp;
    [destruct s, t; reflexivity|].
  destruct s as [|d s]; [discriminate|].
  change (String d s +:+ t) with (String d (s +:+ t)).
  cbn [String.prefix] in Hp |- *.
  destruct (Ascii.ascii_dec c d); [|discriminate]. apply IH. exact Hp.
Qed.

Lemma includes_append (s t pat : string) :
  includes s pat = true -> includes (s +:+ t) pat = true.
Proof.
  induction s as [|c s IH]; cbn [includes String.append].
  - rewrite orb_false_r. intros Hp. destruct pat; [|discriminate].
    destruct t; reflexivity.
  - intros Hs. apply orb_true_iff in Hs as [Hp|Hrest].
    + apply orb_true_iff. left.
      exact (prefix_append pat (String c s) t Hp).
    + apply orb_true_iff. right. apply IH. exact Hrest.
Qed.

Lemma ascii_toLowerCase_append (s t : string) :
  ascii_toLowerCase (s +:+ t) = ascii_toLowerCase s +:+ ascii_toLowerCase t.
Proof.
  induction s as [|c s IH]; [reflexivity|].
  change (String c s +:+ t) with (String c (s +:+ t)).
  cbn [ascii_toLowerCase]. rewrite IH. reflexivity.
Qed.

Lemma stopCommand_append (s t : string) :
  stopCommand s = true -> stopCommand (s +:+ t) = true.
Proof.
  unfold stopCommand. intros Hs.
  apply orb_true_iff in Hs as [Hs|Hs];
    [apply orb_true_iff in Hs as [Hs|Hs]|];
    rewrite (includes_append _ t _ Hs), ?orb_true_r; reflexivity.
Qed.

(** X19. With case mapped as for ASCII text: once the user's accumulated text
    holds a stop phrase, every further fragment of the user in that turn stops
    and removes all active sources and clears the speaking flag again, whatever
    the fragment says. *)
Theorem stop_command_lasts_the_turn (sessionId now : Z) (currentTime : R)
    (s : string) (st : State) :
  currentSessionIdRef st = sessionId ->
  stopCommand (ascii_toLowerCase (currentInputTrans st)) = true ->
  let st' := @onmessage ascii_builtins sessionId now currentTime
               (inputFragment s) st in
  audioSources st' = ∅
  /\ stopped st' = stopped st ∪ audioSources st
  /\ isSpeaking st' = false.
Proof.
  intros Htok Hstop. cbv zeta.
  assert (Hmsg : @onmessage ascii_builtins sessionId now currentTime
                   (inputFragment s) st
                 = @handleTranscription ascii_builtins now (inputFragment s) st).
  { unfold onmessage. rewrite Htok, Z.eqb_refl. reflexivity. }
  rewrite Hmsg. apply (@stop_command_stops_sources ascii_builtins).
  unfold js_concat. cbn [default from_option].
  change (toLowerCase ?x) with (ascii_toLowerCase x).
  rewrite ascii_toLowerCase_append. apply stopCommand_append. exact Hstop.
Qed.

End StopCommand.

(** ** Chunks in sequence *)

Section Chunks.
Context `{Builtins}.

(** X20. Two chunks enqueued one after the other: the second starts at the later
    of its arrival and the end of the first, and the cursor is left at its own
    end. Arriving before the first has ended it follows without gap or overlap;
    arriving late it starts at once. *)
Theorem chunks_back_to_back (b1 b2 : AudioBuffer) (t1 t2 : R) (st : State) :
  let p1 := mkPlaybackSource (nextSource st) b1
              (Rmax t1 (nextStartTime st)) in
  let p2 := mkPlaybackSource (S (nextSource st)) b2 (Rmax t2 (sourceEnd p1)) in
  let st2 := playAudioChunk_resume b2 t2 (playAudioChunk_resume b1 t1 st) in
  playback st2 = playback st ++ [p1; p2]
  /\ nextStartTime st2 = sourceEnd p2
  /\ audioSources st2 = audioSources st ∪ {[sourceId p1]} ∪ {[sourceId p2]}
  /\ (t2 <= sourceEnd p1 -> scheduledStart p2 = sourceEnd p1)
  /\ (sourceEnd p1 <= t2 -> scheduledStart p2 = t2).
Proof.
  cbv zeta. unfold playAudioChunk_resume, sourceEnd.
  cbn [playback nextStartTime audioSources nextSource set_audioSources
       set_nextStartTime set_playback set_nextSource scheduledStart buffer
       sourceId].
  split; [rewrite <- app_assoc; reflexivity|]. split; [reflexivity|].
  split; [reflexivity|]. split; intros Hle.
  - apply Rmax_right. exact Hle.
  - apply Rmax_left. exact Hle.
Qed.

(** X21. A chunk that cannot be decoded (bad base64, an odd number of bytes, no
    bytes) raises the speaking flag and does nothing else: no source is started,
    the cursor stays, and no timer is armed to lower the flag. *)
Theorem undecodable_chunk_raises_speaking (sessionId now : Z)
    (currentTime : R) (base64Data : string) (st : State) :
  currentSessionIdRef st = sessionId ->
  audioContextOutput st <> None ->
  truthy base64Data = true ->
  snd (playAudioChunk_begin base64Data st) = None ->
  onmessage sessionId now currentTime (audioChunk base64Data) st
    = set_isSpeaking true st.
Proof.
  intros Htok Hctx Hdata Hfail. unfold onmessage.
  rewrite Htok, Z.eqb_refl. cbn [negb].
  assert (Hh : handleTranscription now (audioChunk base64Data) st = st)
    by reflexivity.
  rewrite Hh. cbn [serverContent audioChunk mbind option_bind audio].
  destruct (audioContextOutput st); [|contradiction]. rewrite Hdata.
  unfold playAudioChunk_begin in *.
  destruct (base64ToUint8Array base64Data) as [bytes|]; cbn [snd] in Hfail.
  - rewrite Hfail. reflexivity.
  - reflexivity.
Qed.

(** X22. The timer armed when the active set drains lowers the speaking flag
    when it fires, also when a new chunk has started playing meanwhile: the flag
    is then down while a source is active. *)
Theorem grace_timer_ignores_new_chunk (source : SourceId)
    (base64Data : string) (buf : AudioBuffer) (currentTime : R)
    (st st1 : State) :
  audioSources st = {[ source ]} ->
  playAudioChunk_begin base64Data (onended source st) = (st1, Some buf) ->
  let st2 := speakingTimeout (playAudioChunk_resume buf currentTime st1) in
  isSpeaking st1 = true
  /\ isSpeaking st2 = false
  /\ audioSources st2 = {[ nextSource st ]}.
Proof.
  intros Hsrc Hbegin. cbv zeta.
  assert (Hended : onended source st
                   = set_speakingTimers (S (speakingTimers st))
                       (set_audioSources ∅ st)).
  { unfold onended. cbn [audioSources set_audioSources].
    rewrite Hsrc. rewrite difference_diag_L, size_empty. reflexivity. }
  rewrite Hended in Hbegin. unfold playAudioChunk_begin in Hbegin.
  destruct (base64ToUint8Array base64Data) as [bytes|];
    [|discriminate].
  injection Hbegin as <- Hdec.
  split; [reflexivity|]. unfold speakingTimeout, playAudioChunk_resume.
  cbn. split; [reflexivity|]. apply (left_id_L ∅ (∪)).
Qed.

End Chunks.

(** ** The volume observable over time *)

Section VolumeOverTime.
Context `{Builtins}.

Lemma step_volume (st : State) (ev : Event) :
  volume (step st ev) = volume st
  \/ volume (step st ev) = 0
  \/ exists inputData, volume (step st ev) = volumeLevel inputData.
Proof.
  destruct ev as [busy onLine now|input output|busy|sessionId cb| |source|];
    cbn [step].
  - left. destruct busy, onLine; rewrite ?connect_frame; reflexivity.
  - left. reflexivity.
  - destruct busy; [left; reflexivity|]. right. left.
    rewrite disconnect_frame. reflexivity.
  - destruct cb as [source processor|onLine inputData|frame
                    |now currentTime message| |e|stream|session|msg];
      cbn [fire].
    + left. unfold onopen. cases; reflexivity.
    + unfold onaudioprocess.
      destruct (negb _); [left; reflexivity|].
      destruct (0 <? _)%nat; [left; reflexivity|].
      right. right. exists inputData. destruct (truthy _ && onLine); reflexivity.
    + left. unfold sendRealtimeInput. cases; reflexivity.
    + left.
      pose proof (onmessage_lifecycle sessionId now currentTime message st)
        as Hview.
      unfold lifecycleView in Hview. congruence.
    + left. unfold onclose. cases; reflexivity.
    + left. unfold onerror. cases; reflexivity.
    + left. unfold connect_gotUserMedia. cases; reflexivity.
    + left. unfold connect_gotSession. cases; reflexivity.
    + left. unfold connect_catch. cases; reflexivity.
  - left. destruct (pendingSends st) as [|[sessionId frame] rest]; [reflexivity|].
    unfold sendRealtimeInput. cases; reflexivity.
  - left. unfold onended. cases; reflexivity.
  - left. unfold speakingTimeout. cases; reflexivity.
Qed.

(** X23. From the first render on, whatever happens, the volume observable stays
    within the unit interval: only the capture tick and disconnect write it.
    Every tick brings a full buffer, as the script processor is created with
    [BUFFER_SIZE]; the mean over an empty buffer would not be a number. *)
Theorem volume_stays_in_unit_interval (evs : list Event) :
  Forall fullBuffers evs ->
  0 <= volume (run initialState evs) <= 1.
Proof.
  intros _. induction evs as [|ev evs IH] using rev_ind.
  - cbn. lra.
  - rewrite run_snoc.
    destruct (step_volume (run initialState evs) ev) as [->|[->|[l ->]]].
    + exact IH.
    + lra.
    + apply volumeLevel_bounds.
Qed.

End VolumeOverTime.

(** ** Interruption and closing *)

Section Interruption.
Context `{Builtins}.

(** X24. A message with both a chunk of audio and the interrupted flag: the
    active sources are stopped and the cursor rewound before the chunk, whose
    decoding was awaited, is started. So the chunk plays from [currentTime] on,
    alone in the active set, with the speaking flag down. *)
Theorem interrupted_chunk_still_plays (sessionId now : Z) (currentTime : R)
    (base64Data : string) (buf : AudioBuffer) (st st1 : State) :
  currentSessionIdRef st = sessionId ->
  audioContextOutput st <> None ->
  truthy base64Data = true ->
  playAudioChunk_begin base64Data st = (st1, Some buf) ->
  0 <= currentTime ->
  let st' := onmessage sessionId now currentTime
               (interruptedChunk base64Data) st in
  playback st'
    = playback st ++ [mkPlaybackSource (nextSource st) buf currentTime]
  /\ audioSources st' = {[ nextSource st ]}
  /\ stopped st' = stopped st ∪ audioSources st
  /\ nextStartTime st' = currentTime + duration buf
  /\ isSpeaking st' = false
  /\ currentOutputTrans st' = "".
Proof.
  intros Htok Hctx Hdata Hbegin Hnow. cbv zeta. unfold onmessage.
  rewrite Htok, Z.eqb_refl. cbn [negb].
  assert (Hh : handleTranscription now (interruptedChunk base64Data) st = st)
    by reflexivity.
  rewrite Hh.
  cbn [serverContent interruptedChunk mbind option_bind audio from_option
       interrupted].
  destruct (audioContextOutput st); [|contradiction]. rewrite Hdata, Hbegin.
  unfold playAudioChunk_begin in Hbegin.
  destruct (base64ToUint8Array base64Data); [|discriminate].
  injection Hbegin as <- _.
  unfold playAudioChunk_resume, interrupt, stopAllSources. cbn.
  rewrite Rmax_left by exact Hnow.
  repeat split. apply (left_id_L ∅ (∪)).
Qed.

(** X25. When the server closes the session, or an error arrives, under the
    current session id, nothing is torn down: the session id stays current,
    every handle but the session's stays held, nothing is released. The next
    capture tick still moves the volume, and its frame is still handed to the
    transport. *)
Theorem closed_session_keeps_capturing (sessionId : Z) (cb : Callback)
    (inputData : list R) (st : State) :
  currentSessionIdRef st = sessionId ->
  cb = Closed \/ (exists e, cb = Errored e) ->
  audioSources st = ∅ ->
  pendingSends st = [] ->
  truthy (data (tickFrame inputData)) = true ->
  let st1 := fire sessionId cb st in
  let st2 := run st1 [Fire sessionId (AudioProcess true inputData);
                      SessionResolved] in
  (isConnected st1 = false /\ activeSessionRef st1 = None
   /\ currentSessionIdRef st1 = sessionId
   /\ released st1 = released st
   /\ (streamRef st1, processorRef st1, sourceRef st1, audioContextInput st1,
       audioContextOutput st1)
      = (streamRef st, processorRef st, sourceRef st, audioContextInput st,
         audioContextOutput st))
  /\ isConnected st2 = false
  /\ volume st2 = volumeLevel inputData
  /\ outbound st2 = outbound st ++ [tickFrame inputData].
Proof.
  intros Htok Hcb Hquiet Hnone Hdata. cbv zeta.
  assert (Hreset : exists err,
             fire sessionId cb st = resetConnection (set_error err st)).
  { destruct Hcb as [->|[e ->]]; cbn [fire].
    - exists (error st). unfold onclose. rewrite Htok, Z.eqb_refl.
      destruct st; reflexivity.
    - unfold onerror. rewrite Htok, Z.eqb_refl. cbn [negb].
      destruct (isServiceUnavailable _); [eexists; reflexivity|].
      destruct (isSuppressed _); [|eexists; reflexivity].
      exists (error st). destruct st; reflexivity. }
  destruct Hreset as [err ->].
  set (st1 := resetConnection (set_error err st)).
  assert (Htok1 : currentSessionIdRef st1 = sessionId) by exact Htok.
  assert (Hquiet1 : audioSources st1 = ∅) by exact Hquiet.
  assert (Hnone1 : pendingSends st1 = []) by exact Hnone.
  assert (Hout1 : outbound st1 = outbound st) by reflexivity.
  assert (Hdown1 : isConnected st1 = false) by reflexivity.
  split; [subst st1; unfold resetConnection; cbn; repeat split; exact Htok|].
  clearbody st1. unfold run. cbn [fold_left step fire].
  unfold onaudioprocess.
  rewrite Htok1, Z.eqb_refl, Hquiet1, size_empty. cbn [negb Nat.ltb Nat.leb].
  unfold tickFrame in *. cbn [data] in Hdata. cbv zeta. rewrite Hdata.
  cbn [andb pendingSends set_pendingSends set_volume]. rewrite Hnone1.
  cbn [app]. unfold sendRealtimeInput.
  cbn [currentSessionIdRef set_pendingSends set_volume].
  rewrite Htok1, Z.eqb_refl. cbn. rewrite Hout1, Hdown1. repeat split.
Qed.

End Interruption.

Lemma interrupted_chunk_still_plays_witness :
  let st := speakingState in
  let buf := mkAudioBuffer [IZR 0 / 32768; IZR 0 / 32768] SAMPLE_RATE_OUTPUT in
  let st' := @onmessage ascii_builtins 1000 1002 1
               (interruptedChunk silentChunk) st in
  (currentSessionIdRef st = 1000%Z /\ audioContextOutput st <> None
   /\ truthy silentChunk = true
   /\ @playAudioChunk_begin ascii_builtins silentChunk st
      = (set_isSpeaking true st, Some buf)
   /\ 0 <= 1)
  /\ playback st' = playback st ++ [mkPlaybackSource (nextSource st) buf 1]
  /\ audioSources st' = {[ nextSource st ]}
  /\ stopped st' = stopped st ∪ audioSources st
  /\ nextStartTime st' = 1 + duration buf
  /\ isSpeaking st' = false
  /\ currentOutputTrans st' = "".
Proof.
  intros st buf st'.
  assert (Htok : currentSessionIdRef st = 1000%Z) by reflexivity.
  assert (Hctx : audioContextOutput st <> None) by discriminate.
  assert (Hdata : truthy silentChunk = true) by reflexivity.
  assert (Hbegin : @playAudioChunk_begin ascii_builtins silentChunk st
                   = (set_isSpeaking true st, Some buf))
    by (vm_compute; reflexivity).
  assert (Hnow : 0 <= 1) by lra.
  split; [repeat split; assumption|].
  exact (@interrupted_chunk_still_plays ascii_builtins 1000 1002 1 silentChunk
           buf st (set_isSpeaking true st) Htok Hctx Hdata Hbegin Hnow).
Defined.

Lemma closed_session_keeps_capturing_witness :
  let st := @run ascii_builtins initialState (openSession 1000) in
  let st2 := @run ascii_builtins (@fire ascii_builtins 1000 Closed st)
               [Fire 1000%Z (AudioProcess true [1; -1]); SessionResolved] in
  (currentSessionIdRef st = 1000%Z /\ audioSources st = ∅
   /\ pendingSends st = []
   /\ truthy (data (@tickFrame ascii_builtins [1; -1])) = true)
  /\ isConnected st2 = false
  /\ volume st2 = volumeLevel [1; -1]
  /\ outbound st2 = outbound st ++ [@tickFrame ascii_builtins [1; -1]].
Proof.
  intros st st2.
  assert (Htok : currentSessionIdRef st = 1000%Z) by reflexivity.
  assert (Hquiet : audioSources st = ∅) by (vm_compute; reflexivity).
  assert (Hnone : pendingSends st = []) by reflexivity.
  assert (Hdata : truthy (data (@tickFrame ascii_builtins [1; -1])) = true).
  { unfold tickFrame, data, arrayBufferToBase64.
    cbn [btoa ascii_builtins List.map]. rewrite !int16_buffer_cons.
    unfold ascii_btoa. cbn [list_ascii_of_string List.map].
    generalize (toInt16 (1 * 32768)), (toInt16 (-1 * 32768)). intros a b.
    cbn. reflexivity. }
  split; [repeat split; assumption|].
  exact (proj2 (@closed_session_keeps_capturing ascii_builtins 1000 Closed
                  [1; -1] st Htok (or_introl eq_refl) Hquiet Hnone Hdata)).
Defined.

(** ** The further statements at concrete inputs *)

Lemma session_id_written_by_lifecycle_witness :
  currentSessionIdRef (@step ascii_builtins initialState
                         (Connect false true 1000))
    <> currentSessionIdRef initialState
  /\ ((exists now, Connect false true 1000 = Connect false true now)
      \/ Connect false true 1000 = Disconnect false).
Proof.
  assert (Hne : currentSessionIdRef (@step ascii_builtins initialState
                                       (Connect false true 1000))
                <> currentSessionIdRef initialState).
  { change (1000%Z <> 0%Z). discriminate. }
  split; [exact Hne|].
  exact (@session_id_written_by_lifecycle ascii_builtins initialState
           (Connect false true 1000) Hne).
Defined.

Lemma connected_raised_by_onopen_witness :
  let st := @run ascii_builtins initialState
              [Connect false true 1000; AudioContexts 1%nat 2%nat;
               Fire 1000%Z (GotUserMedia 3%nat);
               Fire 1000%Z (GotSession 4%nat)] in
  let ev := Fire 1000%Z (Opened 5%nat 6%nat) in
  (isConnected st = false /\ isConnected (@step ascii_builtins st ev) = true)
  /\ exists source processor,
       ev = Fire (currentSessionIdRef st) (Opened source processor).
Proof.
  intros st ev.
  assert (Hdown : isConnected st = false) by reflexivity.
  assert (Hup : isConnected (@step ascii_builtins st ev) = true)
    by reflexivity.
  split; [split; [exact Hdown|exact Hup]|].
  exact (@connected_raised_by_onopen ascii_builtins st ev Hdown Hup).
Defined.

Lemma accumulators_written_by_onmessage_witness :
  let st := @run ascii_builtins initialState (openSession 1000) in
  let ev := Fire 1000%Z (Received 1001 0 (outputFragment "sadhu")) in
  (currentInputTrans (@step ascii_builtins st ev),
   currentOutputTrans (@step ascii_builtins st ev))
    <> (currentInputTrans st, currentOutputTrans st)
  /\ exists now currentTime message,
       ev = Fire (currentSessionIdRef st) (Received now currentTime message).
Proof.
  intros st ev.
  assert (Hne : (currentInputTrans (@step ascii_builtins st ev),
                 currentOutputTrans (@step ascii_builtins st ev))
                <> (currentInputTrans st, currentOutputTrans st)).
  { change (("", "sadhu") <> ("", "")). discriminate. }
  split; [exact Hne|].
  exact (@accumulators_written_by_onmessage ascii_builtins st ev Hne).
Defined.

Lemma active_sources_never_overlap_witness :
  let evs := openSession 1000
             ++ [Fire 1000%Z (Received 1001 0 (audioChunk silentChunk));
                 Fire 1000%Z (Received 1002 0 (audioChunk silentChunk))] in
  let st := @run ascii_builtins initialState evs in
  let buf := mkAudioBuffer [IZR 0 / 32768; IZR 0 / 32768] SAMPLE_RATE_OUTPUT in
  let p := mkPlaybackSource 0%nat buf (Rmax 0 0) in
  let q := mkPlaybackSource 1%nat buf (Rmax 0 (Rmax 0 0 + duration buf)) in
  (playback st = [p; q] /\ size (audioSources st) = 2%nat)
  /\ sourceEnd p <= scheduledStart q /\ sourceEnd q <= nextStartTime st.
Proof.
  intros evs st buf p q.
  assert (Hplay : playback st = [p; q]) by (vm_compute; reflexivity).
  assert (Hact : audioSources st = {[ 0%nat; 1%nat ]})
    by (vm_compute; reflexivity).
  assert (Hp : p ∈ playback st) by (rewrite Hplay; constructor).
  assert (Hq : q ∈ playback st) by (rewrite Hplay; do 2 constructor).
  assert (Hpa : sourceId p ∈ audioSources st) by (rewrite Hact; set_solver).
  assert (Hqa : sourceId q ∈ audioSources st) by (rewrite Hact; set_solver).
  assert (Hlt : (sourceId p < sourceId q)%nat) by (cbn; lia).
  split; [split; [exact Hplay|vm_compute; reflexivity]|].
  exact (@active_sources_never_overlap ascii_builtins evs p q
           Hp Hq Hpa Hqa Hlt).
Defined.

Lemma turnComplete_empties_accumulators_witness :
  let st := @run ascii_builtins initialState
              (openSession 1000
                 ++ [Fire 1000%Z (Received 1001 0 (inputFragment "hi"));
                     Fire 1000%Z (Received 1002 0 (outputFragment "yo"))]) in
  (currentSessionIdRef st = 1000%Z
   /\ currentInputTrans st = "hi" /\ currentOutputTrans st = "yo")
  /\ currentInputTrans
       (@onmessage ascii_builtins 1000 1003 0 turnCompleteSignal st) = ""
  /\ currentOutputTrans
       (@onmessage ascii_builtins 1000 1003 0 turnCompleteSignal st) = "".
Proof.
  intros st.
  assert (Htok : currentSessionIdRef st = 1000%Z) by reflexivity.
  assert (Hflag : from_option turnComplete false
                    (serverContent turnCompleteSignal) = true)
    by reflexivity.
  split; [split; [exact Htok|split; reflexivity]|].
  exact (@turnComplete_empties_accumulators ascii_builtins 1000 1003 0
           turnCompleteSignal st Htok Hflag).
Defined.

Lemma model_fragments_accumulate_witness :
  let st := @run ascii_builtins initialState (openSession 1000) in
  let first := (1001%Z, 0, "na") in
  let more := [(1002%Z, 0, "mo "); (1003%Z, 0, "buddhaya")] in
  (currentSessionIdRef st = 1000%Z /\ currentOutputTrans st = ""
   /\ trailingPending model (messages st) = false
   /\ truthy (ascii_trim first.2) = true
   /\ fragmentsText (first :: more) = "namo buddhaya")
  /\ messages (@run ascii_builtins st
                 (List.map (modelFragment 1000) (first :: more)))
     = messages st
         ++ [mkMessage (pretty first.1.1) model (fragmentsText (first :: more))
               false].
Proof.
  intros st first more.
  assert (Htok : currentSessionIdRef st = 1000%Z) by reflexivity.
  assert (Hout : currentOutputTrans st = "") by reflexivity.
  assert (Hpend : trailingPending model (messages st) = false) by reflexivity.
  assert (Hfirst : truthy (ascii_trim first.2) = true) by reflexivity.
  split; [repeat split|].
  exact (proj1 (@model_fragments_accumulate ascii_builtins 1000 first more st
                  Htok Hout Hpend Hfirst)).
Defined.

Lemma interrupted_entry_is_overwritten_witness :
  let st := @run ascii_builtins initialState
              (openSession 1000
                 ++ [Fire 1000%Z (Received 1001 0 (outputFragment "namo"))]) in
  (currentSessionIdRef st = 1000%Z
   /\ messages st = [] ++ [mkMessage "1001" model "namo" false])
  /\ messages (@run ascii_builtins st
                 [Fire 1000%Z (Received 1002 0 interruptedSignal);
                  Fire 1000%Z (Received 1003 0 (outputFragment " tassa"))])
     = [] ++ [mkMessage "1001" model " tassa" false].
Proof.
  intros st.
  assert (Htok : currentSessionIdRef st = 1000%Z) by reflexivity.
  assert (Hmsgs : messages st = [] ++ [mkMessage "1001" model "namo" false])
    by reflexivity.
  split; [split; [exact Htok|exact Hmsgs]|].
  exact (proj1 (@interrupted_entry_is_overwritten ascii_builtins 1000 1002
                  1003 0 0 [] "1001" "namo" " tassa" st Htok Hmsgs)).
Defined.

Lemma stop_command_lasts_the_turn_witness :
  let st := @run ascii_builtins initialState
              (openSession 1000
                 ++ [Fire 1000%Z (Received 1001 0 (inputFragment "Titthatu"));
                     Fire 1000%Z (Received 1002 0 (audioChunk silentChunk))])
  in
  let st' := @onmessage ascii_builtins 1000 1003 0 (inputFragment " hello") st
  in
  (currentSessionIdRef st = 1000%Z
   /\ stopCommand (ascii_toLowerCase (currentInputTrans st)) = true
   /\ size (audioSources st) = 1%nat /\ isSpeaking st = true)
  /\ audioSources st' = ∅
  /\ stopped st' = stopped st ∪ audioSources st
  /\ isSpeaking st' = false.
Proof.
  intros st st'.
  assert (Htok : currentSessionIdRef st = 1000%Z) by reflexivity.
  assert (Hstop : stopCommand (ascii_toLowerCase (currentInputTrans st))
                  = true) by (vm_compute; reflexivity).
  assert (Hact : size (audioSources st) = 1%nat) by (vm_compute; reflexivity).
  assert (Hsp : isSpeaking st = true) by reflexivity.
  split; [repeat split; assumption|].
  exact (stop_command_lasts_the_turn 1000 1003 0 " hello" st Htok Hstop).
Defined.

Lemma undecodable_chunk_raises_speaking_witness :
  let st := @run ascii_builtins initialState (openSession 1000) in
  (currentSessionIdRef st = 1000%Z
   /\ audioContextOutput st <> None
   /\ truthy "AAAA" = true
   /\ snd (@playAudioChunk_begin ascii_builtins "AAAA" st) = None)
  /\ @onmessage ascii_builtins 1000 1001 0 (audioChunk "AAAA") st
     = set_isSpeaking true st.
Proof.
  intros st.
  assert (Htok : currentSessionIdRef st = 1000%Z) by reflexivity.
  assert (Hctx : audioContextOutput st <> None) by discriminate.
  assert (Hdata : truthy "AAAA" = true) by reflexivity.
  assert (Hfail : snd (@playAudioChunk_begin ascii_builtins "AAAA" st) = None)
    by (vm_compute; reflexivity).
  split; [repeat split; assumption|].
  exact (@undecodable_chunk_raises_speaking ascii_builtins 1000 1001 0 "AAAA"
           st Htok Hctx Hdata Hfail).
Defined.

Lemma grace_timer_ignores_new_chunk_witness :
  let st := speakingState in
  let buf := mkAudioBuffer [IZR 0 / 32768; IZR 0 / 32768] SAMPLE_RATE_OUTPUT in
  let st1 := set_isSpeaking true (onended 0%nat st) in
  let st2 := speakingTimeout (playAudioChunk_resume buf 0 st1) in
  (audioSources st = {[ 0%nat ]}
   /\ @playAudioChunk_begin ascii_builtins silentChunk (onended 0%nat st)
      = (st1, Some buf))
  /\ isSpeaking st1 = true
  /\ isSpeaking st2 = false
  /\ audioSources st2 = {[ nextSource st ]}.
Proof.
  intros st buf st1 st2.
  assert (Hsrc : audioSources st = {[ 0%nat ]}) by (vm_compute; reflexivity).
  assert (Hbegin : @playAudioChunk_begin ascii_builtins silentChunk
                     (onended 0%nat st) = (st1, Some buf))
    by (vm_compute; reflexivity).
  split; [split; [exact Hsrc|exact Hbegin]|].
  exact (@grace_timer_ignores_new_chunk ascii_builtins 0%nat silentChunk buf 0
           st st1 Hsrc Hbegin).
Defined.

Lemma volume_stays_in_unit_interval_witness :
  let evs := openSession 1000
             ++ [Fire 1000%Z (AudioProcess true (repeat 1 BUFFER_SIZE))] in
  Forall fullBuffers evs
  /\ 0 <= volume (@run ascii_builtins initialState evs) <= 1.
Proof.
  intros evs.
  assert (Hfull : Forall fullBuffers evs).
  { repeat constructor. }
  split; [exact Hfull|].
  exact (@volume_stays_in_unit_interval ascii_builtins evs Hfull).
Defined.
